(** * Inkscape colour management core: spaces, conversion pipeline, registry

    A shallow embedding of [Inkscape::Colors::Space::AnySpace] (the
    translation unit that includes base.h, kept in the sources behind
    ui/widget/spinbutton.cpp), [Inkscape::Colors::Space::Lab]
    (colors/spaces/lab.cpp) and [Inkscape::Colors::Manager]
    (colors/manager.cpp).

    C++ [double] channel values are idealised as real numbers [R]; a
    [std::vector<double>] is a [list R]; [std::map<std::string, _>] caches are
    [gmap string _]; a [std::shared_ptr] that may be null is an [option]. *)

From Stdlib Require Import Reals Lra ZArith Ascii.
From stdpp Require Import gmap strings list.

Local Open Scope Z_scope.

(** ** Enumerations declared in headers *)

(** Modelled from the spec: the enumeration [Space::Type], whose declaration
    is not among the sources; one tag per kind of space the data model
    lists, the named colours and the CMS-backed spaces included. *)
Inductive SpaceType :=
  | T_RGB | T_CMYK | T_Gray | T_HSL | T_HSLUV | T_HSV | T_LAB | T_LCH
  | T_linearRGB | T_LUV | T_OKHSL | T_OKLAB | T_OKLCH | T_XYZ | T_CSSNAME | T_CMS.

#[global] Instance SpaceType_eq_dec : EqDecision SpaceType.
Proof. solve_decision. Defined.

(** Modelled from the spec: the enumeration [RenderingIntent], whose
    declaration is not among the sources.  The code names [UNKNOWN] and
    [PERCEPTUAL]; the others are the remaining ICC intents. *)
Inductive RenderingIntent :=
  | UNKNOWN | PERCEPTUAL | RELATIVE_COLORIMETRIC | SATURATION
  | ABSOLUTE_COLORIMETRIC.

#[global] Instance RenderingIntent_eq_dec : EqDecision RenderingIntent.
Proof. solve_decision. Defined.

(** ** The colour-management library the core consumes

    [Colors::CMS::Profile] and [Colors::CMS::Transform] are external
    collaborators, declared outside the sources: the core only calls the
    operations below, and every fact about the core is proved for any
    implementation of them. *)
Class CmsLibrary := {
  Profile : Type;
  Transform : Type;
  GamutChecker : Type;
  (** [Profile::operator==] *)
  profile_eq : Profile -> Profile -> bool;
  getChecksum : Profile -> string;
  getId : Profile -> string;
  (** the [intentIds] table: one tag per rendering intent *)
  intentIds : RenderingIntent -> string;
  (** [Transform::create_for_cms]; [None] is the null pointer *)
  create_for_cms : Profile -> Profile -> RenderingIntent -> option Transform;
  (** [Transform::do_transform(io)]: the returned flag and [io] afterwards *)
  do_transform : Transform -> list R -> bool * list R;
  create_for_cms_checker : Profile -> Profile -> option GamutChecker;
  check_gamut : GamutChecker -> list R -> bool
}.

(** ** AnySpace *)

Definition UINT_MAX : Z := 2 ^ 32 - 1.

Section Base.
Context `{cms : CmsLibrary}.

(** The virtual interface of a colour space.  [spaceToProfile] and
    [profileToSpace] are the overridable hooks; the base class leaves the
    vector untouched. *)
Record AnySpace := {
  getType : SpaceType;
  getName : string;
  getComponentCount : Z;          (* unsigned int *)
  getIntent : RenderingIntent;
  getProfile : Profile;
  spaceToProfile : list R -> list R;
  profileToSpace : list R -> list R
}.

(** One call of the transform factory, recorded to observe the factory. *)
Inductive FactoryCall :=
  | CreateForCms (from to : Profile) (intent : RenderingIntent)
  | CreateForCmsChecker (from to : Profile).

(** The mutable members of a space instance ([_transforms],
    [_gamut_checkers]) and the ledger of factory calls made so far. *)
Record Caches := {
  _transforms : gmap string (option Transform);
  _gamut_checkers : gmap string (option GamutChecker);
  factory_calls : list FactoryCall
}.

(** [AnySpace::isValidData]: [n_space + 1] is computed in [unsigned int]. *)
Definition isValidData (self : AnySpace) (values : list R) : bool :=
  let n_values := Z.of_nat (length values) in
  let n_space := getComponentCount self in
  (n_values =? n_space) || (n_values =? (n_space + 1) mod 2 ^ 32).

(** The intent chosen inside [profileToProfile]: three assignments in a row. *)
Definition chooseIntent (self to_space : AnySpace) : RenderingIntent :=
  let intent := getIntent self in
  let intent := if decide (intent = UNKNOWN) then getIntent to_space else intent in
  let intent := if decide (intent = UNKNOWN) then PERCEPTUAL else intent in
  intent.

(** [if (auto &tr = _transforms[id]) return tr->do_transform(io); return false;] *)
Definition applyTransform (tr : option Transform) (io : list R) : bool * list R :=
  match tr with
  | Some t => do_transform t io
  | None => (false, io)
  end.

(** [AnySpace::profileToProfile] *)
Definition profileToProfile (self to_space : AnySpace) (io : list R) (st : Caches)
  : bool * list R * Caches :=
  let from_profile := getProfile self in
  let to_profile := getProfile to_space in
  if profile_eq to_profile from_profile then (true, io, st)
  else
    let intent := chooseIntent self to_space in
    let to_profile_id := getChecksum to_profile +:+ intentIds intent in
    let st1 :=
      match _transforms st !! to_profile_id with
      | Some _ => st
      | None =>
          {| _transforms :=
               <[to_profile_id := create_for_cms from_profile to_profile intent]>
                 (_transforms st);
             _gamut_checkers := _gamut_checkers st;
             factory_calls :=
               factory_calls st ++ [CreateForCms from_profile to_profile intent] |}
      end in
    match _transforms st1 !! to_profile_id with
    | Some tr => let '(ok, io') := applyTransform tr io in (ok, io', st1)
    | None =>
        (* operator[] on a missing key would insert a null transform *)
        (false, io,
         {| _transforms := <[to_profile_id := None]> (_transforms st1);
            _gamut_checkers := _gamut_checkers st1;
            factory_calls := factory_calls st1 |})
    end.

(** [AnySpace::convert] *)
Definition convert (self to_space : AnySpace) (io : list R) (st : Caches)
  : bool * list R * Caches :=
  let io := spaceToProfile self io in
  let '(ok, io, st) := profileToProfile self to_space io st in
  if ok then (true, profileToSpace to_space io, st)
  else (false, profileToSpace self io, st).

(** [AnySpace::outOfGamut].  The result is [None] when the cached checker is
    a null pointer, which the source dereferences. *)
Definition outOfGamut (self to_space : AnySpace) (input : list R) (st : Caches)
  : option bool * Caches :=
  let from_profile := getProfile self in
  let to_profile := getProfile to_space in
  if profile_eq to_profile from_profile then (Some false, st)
  else
    let to_profile_id := getId to_profile in
    let st1 :=
      match _gamut_checkers st !! to_profile_id with
      | Some _ => st
      | None =>
          {| _transforms := _transforms st;
             _gamut_checkers :=
               <[to_profile_id := create_for_cms_checker from_profile to_profile]>
                 (_gamut_checkers st);
             factory_calls :=
               factory_calls st ++ [CreateForCmsChecker from_profile to_profile] |}
      end in
    match _gamut_checkers st1 !! to_profile_id with
    | Some (Some checker) => (Some (check_gamut checker input), st1)
    | _ => (None, st1)
    end.

End Base.

(** ** Manager *)

Section Registry.
Context `{cms : CmsLibrary}.

(** The exception thrown by the registry. *)
Inductive ColorError := mkColorError (what : string).

(** [std::find_if]: the first element satisfying [p]; [None] is [end()]. *)
Fixpoint find_if {A} (p : A -> bool) (l : list A) : option A :=
  match l with
  | [] => None
  | v :: l' => if p v then Some v else find_if p l'
  end.

Record Manager := { _spaces : list AnySpace }.

(** [Manager::find(Space::Type)] *)
Definition find_type (m : Manager) (type : SpaceType) : option AnySpace :=
  find_if (fun v => bool_decide (getType v = type)) (_spaces m).

(** [Manager::find(std::string const &)] *)
Definition find_name (m : Manager) (name : string) : option AnySpace :=
  find_if (fun v => bool_decide (getName v = name)) (_spaces m).

(** [Manager::addSpace]: [inl] is the thrown [ColorError], [inr] the registry
    after [emplace_back] together with the returned [_spaces.back()]. *)
Definition addSpace (m : Manager) (space : AnySpace)
  : ColorError + Manager * AnySpace :=
  match find_type m (getType space) with
  | Some _ => inl (mkColorError "Can not add the same color space twice.")
  | None =>
      let spaces' := _spaces m ++ [space] in
      inr ({| _spaces := spaces' |}, default space (last spaces'))
  end.

End Registry.

(** ** Lab *)

Local Open Scope R_scope.

(** [in_out[i]] and [in_out[i] = x] on a vector. *)
Definition vget (v : list R) (i : nat) : R := nth i v 0.
Definition vset (v : list R) (i : nat) (x : R) : list R := <[i := x]> v.

(** Modelled from the spec: the [SCALE_UP] / [SCALE_DOWN] macros of
    colors/utils.h, which is not among the sources.  [SCALE_UP] maps a
    normalised channel onto [[min, max]] and [SCALE_DOWN] is its exact
    inverse. *)
Definition SCALE_UP (v min max : R) : R := v * (max - min) + min.
Definition SCALE_DOWN (v min max : R) : R := (v - min) / (max - min).

Definition LUMA_SCALE : R := 100.
Definition MIN_SCALE : R := -128.
Definition MAX_SCALE : R := 128.
Definition MIN_CSS_SCALE : R := -125.
Definition MAX_CSS_SCALE : R := 125.

(** [std::pow(x, y)] for a positive base. *)
Definition pow_double (x y : R) : R := Rpower x y.

Section Lab.
(** The white point table [illuminant_d65[3]] (declared in another file). *)
Variable illuminant_d65 : nat -> R.

(** [Lab::scaleUp] *)
Definition scaleUp (in_out : list R) : list R :=
  let in_out := vset in_out 0 (SCALE_UP (vget in_out 0) 0 LUMA_SCALE) in
  let in_out := vset in_out 1 (SCALE_UP (vget in_out 1) MIN_SCALE MAX_SCALE) in
  let in_out := vset in_out 2 (SCALE_UP (vget in_out 2) MIN_SCALE MAX_SCALE) in
  in_out.

(** [Lab::scaleDown] *)
Definition scaleDown (in_out : list R) : list R :=
  let in_out := vset in_out 0 (SCALE_DOWN (vget in_out 0) 0 LUMA_SCALE) in
  let in_out := vset in_out 1 (SCALE_DOWN (vget in_out 1) MIN_SCALE MAX_SCALE) in
  let in_out := vset in_out 2 (SCALE_DOWN (vget in_out 2) MIN_SCALE MAX_SCALE) in
  in_out.

(** The body of the loop of [Lab::toXYZ], for channel [i]. *)
Definition toXYZ_channel (in_out : list R) (i : nat) : list R :=
  let x3 := vget in_out i ^ 3 in
  let in_out :=
    if Rlt_dec 0.008856 x3 then vset in_out i x3
    else vset in_out i ((vget in_out i - 16.0 / 116.0) / 7.787) in
  vset in_out i (vget in_out i * illuminant_d65 i).

(** [Lab::toXYZ] *)
Definition toXYZ (in_out : list R) : list R :=
  let in_out := scaleUp in_out in
  let y := (vget in_out 0 + 16.0) / 116.0 in
  let in_out := vset in_out 0 (vget in_out 1 / 500.0 + y) in
  let in_out := vset in_out 1 y in
  let in_out := vset in_out 2 (y - vget in_out 2 / 200.0) in
  fold_left toXYZ_channel (seq 0 3) in_out.

(** The bodies of the two loops of [Lab::fromXYZ], for channel [i]. *)
Definition fromXYZ_white (in_out : list R) (i : nat) : list R :=
  vset in_out i (vget in_out i / illuminant_d65 i).

Definition fromXYZ_channel (in_out : list R) (i : nat) : list R :=
  if Rlt_dec 0.008856 (vget in_out i)
  then vset in_out i (pow_double (vget in_out i) 0.33333)
  else vset in_out i (7.787 * vget in_out i + 16.0 / 116.0).

(** [Lab::fromXYZ] *)
Definition fromXYZ (in_out : list R) : list R :=
  let in_out := fold_left fromXYZ_white (seq 0 3) in_out in
  let l :=
    if Rlt_dec 0.008856 (vget in_out 1)
    then 116 * pow_double (vget in_out 1) 0.33333 - 16
    else 903.3 * vget in_out 1 in
  let in_out := fold_left fromXYZ_channel (seq 0 3) in_out in
  let in_out := vset in_out 2 (200 * (vget in_out 1 - vget in_out 2)) in
  let in_out := vset in_out 1 (500 * (vget in_out 0 - vget in_out 1)) in
  let in_out := vset in_out 0 l in
  scaleDown in_out.

End Lab.

(** The three scalar maps the loops of [Lab::toXYZ] and [Lab::fromXYZ]
    apply to a channel, named so that the loops can be read channel by
    channel. *)
Definition lab_f_inv (x : R) : R :=
  if Rlt_dec 0.008856 (x ^ 3) then x ^ 3 else (x - 16.0 / 116.0) / 7.787.
Definition lab_f (t : R) : R :=
  if Rlt_dec 0.008856 t then pow_double t 0.33333 else 7.787 * t + 16.0 / 116.0.
Definition lab_luma (t : R) : R :=
  if Rlt_dec 0.008856 t then 116 * pow_double t 0.33333 - 16 else 903.3 * t.

(** Modelled from the spec: a D65 white point, standing for the table
    [illuminant_d65], which is declared outside the sources.  The facts about
    Lab below need only that its three entries are not zero. *)
Definition d65_white (i : nat) : R := nth i [0.9504; 1.0000; 1.0888] 0.

(** Two vectors agree within [tol] in every channel. *)
Definition within (tol : R) (w v : list R) : Prop :=
  length w = length v /\
  forall i, (i < length v)%nat -> Rabs (vget w i - vget v i) <= tol.

(** ** CSS text of a Lab colour *)

(** Modelled from the spec: CSS functional notation [lab(L a b / alpha)].
    The printer (colors/printer.h) and the lexer (colors/parser.h) are not
    among the sources.  Text is kept at the level of its lexemes: a number
    with its unit suffix, a separator character, or the closing parenthesis;
    a number is written and read back exactly. *)
Inductive CssToken :=
  | CssNumber (value : R) (unit : string)
  | CssSeparator (c : ascii)
  | CssClose.

(** Modelled from the spec: [CssFuncPrinter(count, prefix)], the stream that
    [Lab::toString] writes into.  The first [count] numbers are the channels;
    one more number is the opacity and is set off by a slash. *)
Record CssFuncPrinter := {
  printer_count : nat;
  printer_prefix : string;
  printer_written : list R
}.

(** Modelled from the spec: the constructor of the printer. *)
Definition CssFuncPrinter_new (count : nat) (prefix : string) : CssFuncPrinter :=
  {| printer_count := count; printer_prefix := prefix; printer_written := [] |}.

(** Modelled from the spec: [os << value] on the printer. *)
Definition css_put (os : CssFuncPrinter) (value : R) : CssFuncPrinter :=
  {| printer_count := printer_count os;
     printer_prefix := printer_prefix os;
     printer_written := printer_written os ++ [value] |}.

Infix "<<" := css_put (at level 50, left associativity).

(** Modelled from the spec: the finished text of the printer, as the
    function name and the lexemes between the parentheses, the closing one
    included. *)
Definition css_str (os : CssFuncPrinter) : string * list CssToken :=
  let number x := CssNumber x "" in
  let channels := take (printer_count os) (printer_written os) in
  let opacity := drop (printer_count os) (printer_written os) in
  (printer_prefix os,
   (number <$> channels)
   ++ match opacity with
      | [] => []
      | alpha :: _ => [CssSeparator "/"%char; number alpha]
      end
   ++ [CssClose]).

(** Modelled from the spec: [append_css_value(ss, output, end, sep, scale)].
    Reads one number; a percentage is divided by 100, a plain number by
    [scale]; the separator [sep] after it is skipped; [end] is raised when
    the closing parenthesis follows.  On failure nothing is appended.
    The result is the returned flag with [ss], [output] and [end]. *)
Definition append_css_value (ss : list CssToken) (output : list R) (end_ : bool)
    (sep : ascii) (scale : R) : bool * list CssToken * list R * bool :=
  if end_ then (false, ss, output, end_)
  else
    match ss with
    | CssNumber value unit :: rest =>
        let rest :=
          match rest with
          | CssSeparator c :: rest' => if Ascii.eqb c sep then rest' else rest
          | _ => rest
          end in
        let end_ := match rest with CssClose :: _ => true | _ => false end in
        if String.eqb unit "%" then (true, rest, output ++ [value / 100], end_)
        else if String.eqb unit "" then (true, rest, output ++ [value / scale], end_)
        else (false, rest, output, end_)
    | _ => (false, ss, output, end_)
    end.

(** [Lab::toString] *)
Definition toString (values : list R) (opacity : bool) : string * list CssToken :=
  let os := CssFuncPrinter_new 3 "lab" in
  let os :=
    os << vget values 0 * LUMA_SCALE
       << SCALE_UP (vget values 1) MIN_CSS_SCALE MAX_CSS_SCALE
       << SCALE_UP (vget values 2) MIN_CSS_SCALE MAX_CSS_SCALE in
  let os :=
    if opacity && bool_decide (length values = 4%nat) then os << vget values 3 else os in
  css_str os.

(** [Lab::Parser::parse]: the returned flag and [output] afterwards.  The
    default arguments of the fourth call are [sep = 0] and [scale = 1]. *)
Definition parse (ss : list CssToken) (output : list R) : bool * list R :=
  let end_ := false in
  let '(ok, ss, output, end_) := append_css_value ss output end_ ","%char LUMA_SCALE in
  if negb ok then (false, output) else
  let '(ok, ss, output, end_) := append_css_value ss output end_ ","%char MAX_CSS_SCALE in
  if negb ok then (false, output) else
  let '(ok, ss, output, end_) := append_css_value ss output end_ "/"%char MAX_CSS_SCALE in
  if negb ok then (false, output) else
  let '(_, ss, output, end_) := append_css_value ss output end_ "000"%char 1 in
  if end_ then
    let output := vset output 1 ((vget output 1 + 1) / 2) in
    let output := vset output 2 ((vget output 2 + 1) / 2) in
    (true, output)
  else (false, output).

(** ** Test doubles *)

(** A colour-management library with three profiles: 0 and 1 convert into
    each other, a transform into profile 2 exists but reports failure and
    leaves the channels alone, and no transform into any other profile can
    be built. *)
#[local] Instance stub_cms : CmsLibrary := {|
  Profile := nat;
  Transform := list R -> bool * list R;
  GamutChecker := list R -> bool;
  profile_eq := Nat.eqb;
  getChecksum := fun p => String (ascii_of_nat (65 + p)) "";
  getId := fun p => String (ascii_of_nat (97 + p)) "";
  intentIds := fun i =>
    match i with
    | PERCEPTUAL => "p" | RELATIVE_COLORIMETRIC => "r" | SATURATION => "s"
    | ABSOLUTE_COLORIMETRIC => "a" | _ => "x"
    end%string;
  create_for_cms := fun _ to _ =>
    match to with
    | 0%nat | 1%nat => Some (fun io => (true, io))
    | 2%nat => Some (fun io => (false, io))
    | _ => None
    end;
  do_transform := fun tr io => tr io;
  create_for_cms_checker := fun _ _ => Some (fun _ => true);
  check_gamut := fun ch input => ch input
|}.

(** A plain space over a given profile: three channels and the base class's
    identity hooks. *)
Definition plain_space (type : SpaceType) (name : string) (intent : RenderingIntent)
    (profile : nat) : AnySpace :=
  {| getType := type; getName := name; getComponentCount := 3;
     getIntent := intent; getProfile := profile;
     spaceToProfile := fun io => io; profileToSpace := fun io => io |}.

Definition no_caches : Caches :=
  {| _transforms := ∅; _gamut_checkers := ∅; factory_calls := [] |}.

(** Spaces used as concrete instances. *)
Definition rgb : AnySpace := plain_space T_RGB "RGB" UNKNOWN 0.
Definition cmyk_over_srgb : AnySpace := plain_space T_CMYK "RGB" UNKNOWN 0.
Definition display : AnySpace := plain_space T_CMS "display" RELATIVE_COLORIMETRIC 1.
Definition missing : AnySpace := plain_space T_CMS "missing" UNKNOWN 3.

(** ** Specification-side definitions *)

Section Reference.
Context `{cms : CmsLibrary}.

(** The order of preference for the rendering intent, as the design states
    it: the source's if it is known, else the destination's if it is known,
    else perceptual. *)
Definition intent_by_preference (self to_space : AnySpace) : RenderingIntent :=
  match getIntent self with
  | UNKNOWN =>
      match getIntent to_space with
      | UNKNOWN => PERCEPTUAL
      | theirs => theirs
      end
  | ours => ours
  end.

(** The key under which [self] caches its transform towards [to_space]. *)
Definition transform_key (self to_space : AnySpace) : string :=
  getChecksum (getProfile to_space) +:+ intentIds (chooseIntent self to_space).

(** The caches of [self] after any number of further calls of its
    cache-mutating operations. *)
Inductive calls_since (self : AnySpace) (st : Caches) : Caches -> Prop :=
  | since_now : calls_since self st st
  | since_profileToProfile st' to_space io :
      calls_since self st st' ->
      calls_since self st (profileToProfile self to_space io st').2
  | since_convert st' to_space io :
      calls_since self st st' ->
      calls_since self st (convert self to_space io st').2
  | since_outOfGamut st' to_space input :
      calls_since self st st' ->
      calls_since self st (outOfGamut self to_space input st').2.

End Reference.

(** ** Further definitions: caches, registry, CSS text *)

Section CacheReference.
Context `{cms : CmsLibrary}.

(** The transform chosen for a conversion: the cached entry, or on a miss
    what the factory returns. *)
Definition resolved_transform (self to_space : AnySpace) (st : Caches)
  : option Transform :=
  match _transforms st !! transform_key self to_space with
  | Some tr => tr
  | None =>
      create_for_cms (getProfile self) (getProfile to_space)
        (chooseIntent self to_space)
  end.

(** A factory call that asks for a transform names a known intent. *)
Definition known_intent (call : FactoryCall) : Prop :=
  match call with
  | CreateForCms _ _ intent => intent <> UNKNOWN
  | CreateForCmsChecker _ _ => True
  end.

End CacheReference.

Section RegistryRemoval.
Context `{cms : CmsLibrary}.

(** [operator==] on two [std::shared_ptr<AnySpace>]: whether both point to
    the same instance.  A space is embedded as its interface, which does not
    record where the instance lives, so the comparison of addresses is taken
    as given. *)
Variable same_instance : AnySpace -> AnySpace -> bool.

(** [Manager::removeSpace]: [std::erase] drops every element equal to
    [space] and returns how many it dropped; the count is returned as a
    [bool]. *)
Definition removeSpace (m : Manager) (space : AnySpace) : bool * Manager :=
  let kept := List.filter (fun v => negb (same_instance v space)) (_spaces m) in
  let erased := (length (_spaces m) - length kept)%nat in
  (negb (erased =? 0)%nat, {| _spaces := kept |}).

(** No two registered spaces share a [Type]. *)
Definition types_unique (m : Manager) : Prop :=
  NoDup (getType <$> _spaces m).

End RegistryRemoval.

(** ** SpinButton (ui/widget/spinbutton.cpp) *)

(** The key values [on_key_pressed] tells apart; every other value of
    [get_latin_keyval] takes the [default] branch. *)
Inductive LatinKey :=
  | GDK_KEY_Escape | GDK_KEY_Return | GDK_KEY_KP_Enter | GDK_KEY_z | GDK_KEY_Z
  | GDK_KEY_Up | GDK_KEY_KP_Up | GDK_KEY_Down | GDK_KEY_KP_Down | GDK_KEY_other.

(** A call the widget makes on its Gtk base class or on its surroundings. *)
Inductive GtkCall :=
  | set_value (value : R)
  | select_region (start_pos end_pos : Z)
  | onDefocus
  | grab_focus.

(** [NumericMenuData], a [std::map<double, Glib::ustring>]: the entries in
    ascending order of their keys, no key twice. *)
Definition NumericMenuData := list (R * string).

(** [std::map::emplace]: the entry goes to its place in the order, unless
    its key is already there. *)
Fixpoint emplace (entry : R * string) (values : NumericMenuData) : NumericMenuData :=
  match values with
  | [] => [entry]
  | first :: rest =>
      if Rlt_dec entry.1 first.1 then entry :: values
      else if Rlt_dec first.1 entry.1 then first :: emplace entry rest
      else values
  end.

(** One radio item of the popover menu. *)
Record MenuItem := {
  item_label : string;
  item_active : bool;
  item_value : R
}.

(** What the widget consumes from outside its file: the unit type of the
    unit menu and unit tracker; the evaluator of expressions, which yields a
    value with its dimension or throws (here: [None]);
    [Controller::has_flag], the six modifier masks or-ed together and the
    control mask; and the two ways a number becomes a menu label. *)
Class WidgetToolkit := {
  Unit : Type;
  isAbsolute : Unit -> bool;
  evaluate : string -> option Unit -> option (R * Z);
  ModifierType : Type;
  has_flag : ModifierType -> ModifierType -> bool;
  modifiers : ModifierType;
  CONTROL_MASK : ModifierType;
  ustring_compose : R -> string -> string;
  format_classic : R -> string
}.

Section SpinButton.
Context `{toolkit : WidgetToolkit}.

(** The members of the widget, and what it reads from its Gtk base class:
    the current value (of the spin button and of its adjustment, which Gtk
    keeps equal), the text of the entry, the bounds and page increment of
    the adjustment, and whether a scrollable ancestor exists. *)
Record SpinButton := {
  _unit_menu : option Unit;
  _unit_tracker : option Unit;
  _on_focus_in_value : R;
  _defocus_target : bool;
  _dont_evaluate : bool;
  _custom_menu_data : NumericMenuData;
  _custom_popup : bool;
  _increment : R;
  get_value : R;
  get_text : string;
  get_lower : R;
  get_upper : R;
  get_page_increment : R;
  scrollable_ancestor : bool
}.

(** [SpinButton::on_input]: the returned flag and [newvalue] afterwards. *)
Definition on_input (self : SpinButton) (newvalue : R) : bool * R :=
  if _dont_evaluate self then (false, newvalue)
  else
    let unit :=
      match _unit_menu self with
      | Some u => Some u
      | None => _unit_tracker self
      end in
    match unit with
    | Some u =>
        match evaluate (get_text self) (Some u) with
        | Some (value, dimension) =>
            if negb (dimension =? (if isAbsolute u then 1 else 0))%Z
            then (false, newvalue)
            else (true, value)
        | None => (false, newvalue)
        end
    | None =>
        match evaluate (get_text self) None with
        | Some (value, _) => (true, value)
        | None => (false, newvalue)
        end
    end.

(** [SpinButton::undo] *)
Definition undo (self : SpinButton) : list GtkCall :=
  [set_value (_on_focus_in_value self)].

(** [SpinButton::defocus] *)
Definition defocus (self : SpinButton) : list GtkCall :=
  select_region 0 0
  :: (if _defocus_target self then [onDefocus]
      else if scrollable_ancestor self then [grab_focus]
      else []).

(** [SpinButton::on_key_pressed], given the key [get_latin_keyval] reports:
    whether the event is consumed, and the calls made. *)
Definition on_key_pressed (self : SpinButton) (key : LatinKey) (state : ModifierType)
  : bool * list GtkCall :=
  let '(inc, val) :=
    if Rlt_dec 0 (_increment self) then
      if negb (has_flag state modifiers) then (true, get_value self) else (false, 0)
    else (false, 0) in
  match key with
  | GDK_KEY_Escape => (true, undo self ++ defocus self)
  | GDK_KEY_Return | GDK_KEY_KP_Enter => (false, defocus self)
  | GDK_KEY_z | GDK_KEY_Z =>
      if has_flag state CONTROL_MASK then (true, undo self) else (false, [])
  | GDK_KEY_Up | GDK_KEY_KP_Up =>
      if inc then (true, [set_value (val + _increment self)]) else (false, [])
  | GDK_KEY_Down | GDK_KEY_KP_Down =>
      if inc then (true, [set_value (val - _increment self)]) else (false, [])
  | GDK_KEY_other => (false, [])
  end.

(** The first part of [SpinButton::create_popover_menu]: the values the
    menu offers.  [std::fmin] and [std::fmax] are [Rmin] and [Rmax]. *)
Definition menu_values (self : SpinButton) : NumericMenuData :=
  let adj_value := get_value self in
  let lower := get_lower self in
  let upper := get_upper self in
  let page := get_page_increment self in
  let values :=
    fold_left
      (fun values custom_data =>
         if Rge_dec custom_data.1 lower then
           if Rle_dec custom_data.1 upper then emplace custom_data values
           else values
         else values)
      (_custom_menu_data self) [] in
  let values := emplace (adj_value, ""%string) values in
  let values := emplace (Rmin (adj_value + page) upper, ""%string) values in
  let values := emplace (Rmax (adj_value - page) lower, ""%string) values in
  values.

(** The second part of [SpinButton::create_popover_menu]: one radio item
    per value, in the order of the map. *)
Definition create_popover_menu (self : SpinButton) : list MenuItem :=
  (fun value : R * string =>
     {| item_label :=
          if negb (String.eqb value.2 "") then ustring_compose value.1 value.2
          else format_classic value.1;
        item_active := if Req_dec_T (get_value self) value.1 then true else false;
        item_value := value.1 |})
  <$> menu_values self.

End SpinButton.

(** The keys of a list are in strictly ascending order. *)
Fixpoint ascending (keys : list R) : Prop :=
  match keys with
  | [] => True
  | key :: rest => Forall (Rlt key) rest /\ ascending rest
  end.

(** The unit an entered expression is evaluated against: the unit menu's
    if there is a menu, else the tracker's. *)
Definition linked_unit `{toolkit : WidgetToolkit} (self : SpinButton) : option Unit :=
  match _unit_menu self with
  | Some u => Some u
  | None => _unit_tracker self
  end.


(** ** Further test doubles *)

(** A colour-management library whose factory can build no gamut checker. *)
Definition cms_without_checkers : CmsLibrary := {|
  Profile := nat;
  Transform := list R -> bool * list R;
  GamutChecker := list R -> bool;
  profile_eq := Nat.eqb;
  getChecksum := fun p => String (ascii_of_nat (65 + p)) "";
  getId := fun p => String (ascii_of_nat (97 + p)) "";
  intentIds := fun _ => "p"%string;
  create_for_cms := fun _ _ _ => None;
  do_transform := fun tr io => tr io;
  create_for_cms_checker := fun _ _ => None;
  check_gamut := fun ch input => ch input
|}.

(** A three-channel space of that library over a given profile. *)
Definition unchecked_space (profile : nat) : @AnySpace cms_without_checkers :=
  {| getType := T_CMS; getName := "unchecked"; getComponentCount := 3;
     getIntent := UNKNOWN; getProfile := profile : @Profile cms_without_checkers;
     spaceToProfile := fun io => io; profileToSpace := fun io => io |}.

Definition no_caches_unchecked : @Caches cms_without_checkers :=
  {| _transforms := ∅; _gamut_checkers := ∅; factory_calls := [] |}.

(** Two of the spaces above are the same instance when type and name agree. *)
Definition same_type_and_name (a b : AnySpace) : bool :=
  bool_decide (getType a = getType b) && String.eqb (getName a) (getName b).

(** A toolkit whose units are told apart by being absolute or not, whose
    evaluator knows one expression, and whose modifiers are bit masks. *)
#[local] Instance stub_toolkit : WidgetToolkit := {|
  Unit := bool;
  isAbsolute := fun u => u;
  evaluate := fun text _ => if String.eqb text "2+3" then Some (5, 0%Z) else None;
  ModifierType := N;
  has_flag := fun state flags => negb (N.land state flags =? 0)%N;
  modifiers := (1 + 4 + 8 + 2 ^ 26 + 2 ^ 27 + 2 ^ 28)%N;
  CONTROL_MASK := 4%N;
  ustring_compose := fun _ label => label;
  format_classic := fun _ => ""%string
|}.

(** A spin button at 50 between 0 and 100, with three custom entries. *)
Definition sample_button : SpinButton :=
  {| _unit_menu := None; _unit_tracker := None; _on_focus_in_value := 40;
     _defocus_target := false; _dont_evaluate := false;
     _custom_menu_data := [(0, "none"); (50, "half"); (200, "double")]%string;
     _custom_popup := true; _increment := 1;
     get_value := 50; get_text := "2+3"; get_lower := 0; get_upper := 100;
     get_page_increment := 10; scrollable_ancestor := true |}.

(** * Properties of AnySpace *)

Section BaseFacts.
Context `{cms : CmsLibrary}.
Implicit Types (self to_space : AnySpace) (io : list R) (st : Caches).

Lemma chooseIntent_preference self to_space :
  chooseIntent self to_space = intent_by_preference self to_space.
Proof.
  unfold chooseIntent, intent_by_preference.
  destruct (getIntent self), (getIntent to_space); reflexivity.
Qed.

(** The one-step unfolding of stage 2 when the profiles differ: a cache hit
    applies the cached entry and leaves the caches alone; a miss calls the
    factory once, stores what it returned and applies that. *)
Lemma profileToProfile_differ self to_space io st :
  profile_eq (getProfile to_space) (getProfile self) = false ->
  profileToProfile self to_space io st =
    let key := transform_key self to_space in
    match _transforms st !! key with
    | Some tr => (applyTransform tr io, st)
    | None =>
        let tr := create_for_cms (getProfile self) (getProfile to_space)
                    (chooseIntent self to_space) in
        (applyTransform tr io,
         {| _transforms := <[key := tr]> (_transforms st);
            _gamut_checkers := _gamut_checkers st;
            factory_calls :=
              factory_calls st ++
              [CreateForCms (getProfile self) (getProfile to_space)
                 (chooseIntent self to_space)] |})
    end.
Proof.
  intros Hne. unfold profileToProfile, transform_key. rewrite Hne. cbv zeta.
  destruct (_transforms st !! _) as [tr|] eqn:Hlook.
  - rewrite Hlook. destruct (applyTransform tr io); reflexivity.
  - cbn [_transforms]. rewrite lookup_insert_eq.
    destruct (applyTransform _ io); reflexivity.
Qed.

Lemma profileToProfile_same self to_space io st :
  profile_eq (getProfile to_space) (getProfile self) = true ->
  profileToProfile self to_space io st = (true, io, st).
Proof. intros Heq. unfold profileToProfile. rewrite Heq. reflexivity. Qed.

(** C9: [isValidData] accepts exactly the vectors whose length is the
    component count or the component count plus one.  The component count is
    an [unsigned int] below [UINT_MAX], the one value at which the sum
    [n_space + 1] of the source would wrap; the data model has 3 or 4. *)
Theorem isValidData_iff self (values : list R) :
  (0 <= getComponentCount self < UINT_MAX)%Z ->
  isValidData self values = true <->
  (Z.of_nat (length values) = getComponentCount self \/
   Z.of_nat (length values) = getComponentCount self + 1)%Z.
Proof.
  unfold UINT_MAX, isValidData. intros Hrange.
  rewrite Z.mod_small by lia.
  rewrite orb_true_iff, !Z.eqb_eq. reflexivity.
Qed.

(** C6: between two spaces over the same profile, stage 2 succeeds at once
    with the vector and the caches untouched (no factory call is recorded),
    and [convert] is the source's encoder followed by the destination's
    decoder and returns true. *)
Theorem convert_same_profile self to_space io st :
  profile_eq (getProfile to_space) (getProfile self) = true ->
  profileToProfile self to_space (spaceToProfile self io) st
    = (true, spaceToProfile self io, st) /\
  convert self to_space io st
    = (true, profileToSpace to_space (spaceToProfile self io), st).
Proof.
  intros Heq. unfold convert.
  rewrite (profileToProfile_same _ _ _ _ Heq). split; reflexivity.
Qed.

(** C7: [outOfGamut] answers false for every input when the two profiles
    compare equal, and touches no cache. *)
Theorem outOfGamut_same_profile self to_space (input : list R) st :
  profile_eq (getProfile to_space) (getProfile self) = true ->
  outOfGamut self to_space input st = (Some false, st).
Proof. intros Heq. unfold outOfGamut. rewrite Heq. reflexivity. Qed.

(** C4: when the profiles differ, the transform is looked up under, and on a
    miss built with, the intent picked in the order source, destination,
    perceptual. *)
Theorem profileToProfile_intent self to_space io st :
  profile_eq (getProfile to_space) (getProfile self) = false ->
  profileToProfile self to_space io st =
    let intent := intent_by_preference self to_space in
    let key := getChecksum (getProfile to_space) +:+ intentIds intent in
    match _transforms st !! key with
    | Some tr => (applyTransform tr io, st)
    | None =>
        let tr := create_for_cms (getProfile self) (getProfile to_space) intent in
        (applyTransform tr io,
         {| _transforms := <[key := tr]> (_transforms st);
            _gamut_checkers := _gamut_checkers st;
            factory_calls :=
              factory_calls st ++
              [CreateForCms (getProfile self) (getProfile to_space) intent] |})
    end.
Proof.
  intros Hne. rewrite (profileToProfile_differ _ _ _ _ Hne).
  unfold transform_key. rewrite chooseIntent_preference. reflexivity.
Qed.

End BaseFacts.

Section CacheFacts.
Context `{cms : CmsLibrary}.
Implicit Types (self to_space : AnySpace) (io : list R) (st : Caches).

(** An entry of the transform cache, once present, is never replaced. *)
Lemma profileToProfile_keeps self to_space io st key tr :
  _transforms st !! key = Some tr ->
  _transforms (profileToProfile self to_space io st).2 !! key = Some tr.
Proof.
  intros Hkey.
  destruct (profile_eq (getProfile to_space) (getProfile self)) eqn:Heq.
  - rewrite (profileToProfile_same _ _ _ _ Heq). exact Hkey.
  - rewrite (profileToProfile_differ _ _ _ _ Heq). cbv zeta.
    destruct (_transforms st !! transform_key self to_space) eqn:Hlook; cbn.
    + exact Hkey.
    + rewrite lookup_insert_ne; [exact Hkey | congruence].
Qed.

Lemma convert_caches self to_space io st :
  (convert self to_space io st).2
  = (profileToProfile self to_space (spaceToProfile self io) st).2.
Proof.
  unfold convert.
  destruct (profileToProfile self to_space (spaceToProfile self io) st)
    as [[[] io'] st']; reflexivity.
Qed.

Lemma outOfGamut_transforms self to_space (input : list R) st :
  _transforms (outOfGamut self to_space input st).2 = _transforms st.
Proof.
  unfold outOfGamut.
  destruct (profile_eq _ _); [reflexivity |]. cbv zeta.
  destruct (_gamut_checkers st !! _) as [c|] eqn:Hlook.
  - rewrite Hlook. destruct c; reflexivity.
  - cbn [_gamut_checkers]. rewrite lookup_insert_eq.
    destruct (create_for_cms_checker _ _); reflexivity.
Qed.

Lemma calls_since_keeps self st st' key tr :
  calls_since self st st' ->
  _transforms st !! key = Some tr ->
  _transforms st' !! key = Some tr.
Proof.
  induction 1 as [|st' to_space io _ IH|st' to_space io _ IH|st' to_space input _ IH];
    intros Hkey.
  - exact Hkey.
  - apply profileToProfile_keeps, IH, Hkey.
  - rewrite convert_caches. apply profileToProfile_keeps, IH, Hkey.
  - rewrite outOfGamut_transforms. apply IH, Hkey.
Qed.

(** A null transform, whether just returned by the factory or found in the
    cache, makes stage 2 fail with the vector untouched. *)
Lemma profileToProfile_null self to_space io st :
  profile_eq (getProfile to_space) (getProfile self) = false ->
  _transforms (profileToProfile self to_space io st).2
    !! transform_key self to_space = Some None ->
  (profileToProfile self to_space io st).1 = (false, io).
Proof.
  intros Hne. rewrite (profileToProfile_differ _ _ _ _ Hne). cbv zeta.
  destruct (_transforms st !! transform_key self to_space) as [tr|] eqn:Hlook; cbn.
  - rewrite Hlook. intros [= ->]. reflexivity.
  - rewrite lookup_insert_eq. intros [= ->]. reflexivity.
Qed.



(** C5: when the first call under a key finds the factory unable to build
    the transform, the null result is stored under that key, and every later
    call under the same key returns false with the vector and the caches
    unchanged, so the factory is not called again. *)
Theorem negative_caching self to_space io st :
  profile_eq (getProfile to_space) (getProfile self) = false ->
  _transforms st !! transform_key self to_space = None ->
  create_for_cms (getProfile self) (getProfile to_space)
    (chooseIntent self to_space) = None ->
  let r := profileToProfile self to_space io st in
  r.1.1 = false /\
  _transforms r.2 !! transform_key self to_space = Some None /\
  factory_calls r.2 =
    factory_calls st ++
    [CreateForCms (getProfile self) (getProfile to_space) (chooseIntent self to_space)] /\
  forall st' to_space' io',
    calls_since self r.2 st' ->
    profile_eq (getProfile to_space') (getProfile self) = false ->
    transform_key self to_space' = transform_key self to_space ->
    profileToProfile self to_space' io' st' = (false, io', st').
Proof.
  intros Hne Hmiss Hnull r.
  assert (Hstored : _transforms r.2 !! transform_key self to_space = Some None).
  { subst r. rewrite (profileToProfile_differ _ _ _ _ Hne). cbv zeta.
    rewrite Hmiss, Hnull. cbn. apply lookup_insert_eq. }
  repeat split.
  - subst r. rewrite (profileToProfile_differ _ _ _ _ Hne). cbv zeta.
    rewrite Hmiss, Hnull. reflexivity.
  - exact Hstored.
  - subst r. rewrite (profileToProfile_differ _ _ _ _ Hne). cbv zeta.
    rewrite Hmiss. reflexivity.
  - intros st' to_space' io' Hlater Hne' Hkey.
    rewrite (profileToProfile_differ _ _ _ _ Hne'). cbv zeta.
    rewrite Hkey, (calls_since_keeps _ _ _ _ _ Hlater Hstored). reflexivity.
Qed.

End CacheFacts.

(** * Properties of the registry *)

Section RegistryFacts.
Context `{cms : CmsLibrary}.
Implicit Types (m : Manager) (s : AnySpace).

Lemma find_if_None {A} (p : A -> bool) (l : list A) :
  find_if p l = None <-> forall x, x ∈ l -> p x = false.
Proof.
  induction l as [|v l IH]; cbn.
  - split; [intros _ x Hx; inversion Hx | reflexivity].
  - destruct (p v) eqn:Hv.
    + split; [discriminate |]. intros H. rewrite (H v) in Hv by left. discriminate.
    + rewrite IH. split.
      * intros H x Hx. inversion Hx; subst; auto.
      * intros H x Hx. apply H. now right.
Qed.

(** [find_if] returns the first match in list order. *)
Lemma find_if_Some {A} (p : A -> bool) (l : list A) (x : A) :
  find_if p l = Some x <->
  exists before after,
    l = before ++ x :: after /\ p x = true /\ forall y, y ∈ before -> p y = false.
Proof.
  induction l as [|v l IH]; cbn.
  - split; [discriminate |]. intros (before & after & Heq & _).
    destruct before; discriminate.
  - destruct (p v) eqn:Hv.
    + split.
      * intros [= ->]. exists [], l. repeat split; [assumption |].
        intros y Hy. inversion Hy.
      * intros (before & after & Heq & Hx & Hbefore).
        destruct before as [|b before]; cbn in Heq.
        -- congruence.
        -- injection Heq as -> _. rewrite (Hbefore b) in Hv by left. discriminate.
    + rewrite IH. split.
      * intros (before & after & -> & Hx & Hbefore).
        exists (v :: before), after. repeat split; [assumption |].
        intros y Hy. inversion Hy; subst; auto.
      * intros (before & after & Heq & Hx & Hbefore).
        destruct before as [|b before]; cbn in Heq.
        -- injection Heq as -> _. congruence.
        -- injection Heq as -> ->. exists before, after. repeat split; [assumption |].
           intros y Hy. apply Hbefore. now right.
Qed.

Lemma find_if_app_None {A} (p : A -> bool) (l : list A) (x : A) :
  find_if p l = None -> find_if p (l ++ [x]) = if p x then Some x else None.
Proof.
  induction l as [|v l IH]; cbn; [reflexivity |].
  destruct (p v); [discriminate | exact IH].
Qed.

Lemma find_if_app_Some {A} (p : A -> bool) (l l' : list A) (x : A) :
  find_if p l = Some x -> find_if p (l ++ l') = Some x.
Proof.
  induction l as [|v l IH]; cbn; [discriminate |].
  destruct (p v); [trivial | exact IH].
Qed.

Lemma addSpace_fresh m s :
  find_type m (getType s) = None ->
  addSpace m s = inr ({| _spaces := _spaces m ++ [s] |}, s).
Proof.
  intros Hfresh. unfold addSpace. rewrite Hfresh. cbv zeta.
  rewrite last_snoc. reflexivity.
Qed.

(** C8: [addSpace] throws exactly when a space of the same type is already
    registered; otherwise it appends the space, returns it, and a later
    [find] by its type returns that very space. *)
Theorem addSpace_unique_type m s :
  match addSpace m s with
  | inl error =>
      error = mkColorError "Can not add the same color space twice." /\
      exists s0, s0 ∈ _spaces m /\ getType s0 = getType s
  | inr (m', added) =>
      (forall s0, s0 ∈ _spaces m -> getType s0 <> getType s) /\
      _spaces m' = _spaces m ++ [s] /\
      added = s /\
      find_type m' (getType s) = Some s
  end.
Proof.
  destruct (find_type m (getType s)) as [s0|] eqn:Hfind.
  - unfold addSpace. rewrite Hfind. split; [reflexivity |].
    apply find_if_Some in Hfind as (before & after & Heq & Hty & _).
    exists s0. rewrite Heq. split.
    + apply elem_of_app. right. left.
    + now apply bool_decide_eq_true in Hty.
  - rewrite (addSpace_fresh _ _ Hfind). repeat split.
    + intros s0 Hin. unfold find_type in Hfind.
      rewrite find_if_None in Hfind. specialize (Hfind s0 Hin).
      now apply bool_decide_eq_false in Hfind.
    + unfold find_type. cbn [_spaces].
      rewrite (find_if_app_None _ _ _ Hfind).
      rewrite bool_decide_eq_true_2; reflexivity.
Qed.

(** C10: the registry checks the type only.  A space whose name is already
    taken by a registered space of another type is accepted, and a lookup by
    that name still returns the space registered first under it. *)
Theorem addSpace_duplicate_name m s s0 :
  s0 ∈ _spaces m ->
  getName s0 = getName s ->
  (forall x, x ∈ _spaces m -> getType x <> getType s) ->
  exists m',
    addSpace m s = inr (m', s) /\
    _spaces m' = _spaces m ++ [s] /\
    exists first before after,
      find_name m' (getName s) = Some first /\
      find_name m (getName s) = Some first /\
      _spaces m = before ++ first :: after /\
      getName first = getName s /\
      forall x, x ∈ before -> getName x <> getName s.
Proof.
  intros Hin Hname Htypes.
  assert (Hfresh : find_type m (getType s) = None).
  { apply find_if_None. intros x Hx. apply bool_decide_eq_false. auto. }
  exists {| _spaces := _spaces m ++ [s] |}.
  split; [apply addSpace_fresh, Hfresh |]. split; [reflexivity |].
  destruct (find_name m (getName s)) as [first|] eqn:Hfind.
  - pose proof Hfind as Hfirst.
    apply find_if_Some in Hfirst as (before & after & Heq & Hn & Hbefore).
    exists first, before, after. repeat split.
    + unfold find_name. cbn [_spaces]. apply find_if_app_Some, Hfind.
    + exact Heq.
    + now apply bool_decide_eq_true in Hn.
    + intros x Hx. specialize (Hbefore x Hx).
      now apply bool_decide_eq_false in Hbefore.
  - unfold find_name in Hfind. rewrite find_if_None in Hfind.
    specialize (Hfind s0 Hin). apply bool_decide_eq_false in Hfind. contradiction.
Qed.

End RegistryFacts.

(** * Worked instances *)

Section Instances.
Local Open Scope R_scope.

(** C9 at the three-channel space [rgb] and a vector with opacity. *)
Lemma isValidData_iff_witness :
  (0 <= getComponentCount rgb < UINT_MAX)%Z /\
  (isValidData rgb [1; 0; 0; 1] = true <->
   (Z.of_nat (length [1; 0; 0; 1]) = getComponentCount rgb \/
    Z.of_nat (length [1; 0; 0; 1]) = getComponentCount rgb + 1)%Z).
Proof.
  split.
  - cbn. unfold UINT_MAX. lia.
  - apply (isValidData_iff rgb [1; 0; 0; 1]). cbn. unfold UINT_MAX. lia.
Defined.

(** C6 at two spaces over profile 0. *)
Lemma convert_same_profile_witness :
  profile_eq (getProfile cmyk_over_srgb) (getProfile rgb) = true /\
  profileToProfile rgb cmyk_over_srgb (spaceToProfile rgb [1; 0; 0]) no_caches
    = (true, spaceToProfile rgb [1; 0; 0], no_caches) /\
  convert rgb cmyk_over_srgb [1; 0; 0] no_caches
    = (true, profileToSpace cmyk_over_srgb (spaceToProfile rgb [1; 0; 0]), no_caches).
Proof.
  split.
  - reflexivity.
  - apply (convert_same_profile rgb cmyk_over_srgb [1; 0; 0] no_caches). reflexivity.
Defined.

(** C7 at two spaces over profile 0 and channels far out of range. *)
Lemma outOfGamut_same_profile_witness :
  profile_eq (getProfile cmyk_over_srgb) (getProfile rgb) = true /\
  outOfGamut rgb cmyk_over_srgb [2; -1; 7] no_caches = (Some false, no_caches).
Proof.
  split.
  - reflexivity.
  - apply (outOfGamut_same_profile rgb cmyk_over_srgb [2; -1; 7] no_caches). reflexivity.
Defined.

(** C4 at a source without an intent and a destination with one: the miss
    builds the transform with the destination's intent. *)
Lemma profileToProfile_intent_witness :
  profile_eq (getProfile display) (getProfile rgb) = false /\
  profileToProfile rgb display [1; 0; 0] no_caches =
    (true, [1; 0; 0],
     {| _transforms :=
          <[getChecksum (getProfile display) +:+ intentIds RELATIVE_COLORIMETRIC
            := create_for_cms (getProfile rgb) (getProfile display) RELATIVE_COLORIMETRIC]> ∅;
        _gamut_checkers := ∅;
        factory_calls :=
          [CreateForCms (getProfile rgb) (getProfile display) RELATIVE_COLORIMETRIC] |}).
Proof.
  split.
  - reflexivity.
  - rewrite (profileToProfile_intent rgb display [1; 0; 0] no_caches); reflexivity.
Defined.


(** C5 at a destination whose transform cannot be built. *)
Lemma negative_caching_witness :
  profile_eq (getProfile missing) (getProfile rgb) = false /\
  _transforms no_caches !! transform_key rgb missing = None /\
  create_for_cms (getProfile rgb) (getProfile missing) (chooseIntent rgb missing) = None /\
  (profileToProfile rgb missing [1; 0; 0] no_caches).1.1 = false /\
  forall st' io',
    calls_since rgb (profileToProfile rgb missing [1; 0; 0] no_caches).2 st' ->
    profileToProfile rgb missing io' st' = (false, io', st').
Proof.
  pose proof (negative_caching rgb missing [1; 0; 0] no_caches
                eq_refl eq_refl eq_refl) as (Hfalse & _ & _ & Hlater).
  split; [reflexivity |]. split; [reflexivity |]. split; [reflexivity |].
  split; [exact Hfalse |].
  intros st' io' Hsince. apply Hlater; [exact Hsince | reflexivity | reflexivity].
Defined.

(** C10 at a registry holding [rgb] and a CMYK space that is also named
    RGB. *)
Lemma addSpace_duplicate_name_witness :
  rgb ∈ _spaces {| _spaces := [rgb] |} /\
  getName rgb = getName cmyk_over_srgb /\
  (forall x, x ∈ _spaces {| _spaces := [rgb] |} -> getType x <> getType cmyk_over_srgb) /\
  exists m',
    addSpace {| _spaces := [rgb] |} cmyk_over_srgb = inr (m', cmyk_over_srgb) /\
    _spaces m' = [rgb] ++ [cmyk_over_srgb] /\
    exists first before after,
      find_name m' (getName cmyk_over_srgb) = Some first /\
      find_name {| _spaces := [rgb] |} (getName cmyk_over_srgb) = Some first /\
      [rgb] = before ++ first :: after /\
      getName first = getName cmyk_over_srgb /\
      forall x, x ∈ before -> getName x <> getName cmyk_over_srgb.
Proof.
  assert (Hin : rgb ∈ _spaces {| _spaces := [rgb] |}) by left.
  assert (Hty : forall x, x ∈ _spaces {| _spaces := [rgb] |} ->
                          getType x <> getType cmyk_over_srgb).
  { intros x Hx. apply list_elem_of_singleton in Hx. subst x. discriminate. }
  split; [exact Hin |]. split; [reflexivity |]. split; [exact Hty |].
  exact (addSpace_duplicate_name {| _spaces := [rgb] |} cmyk_over_srgb rgb
           Hin eq_refl Hty).
Defined.

End Instances.

(** * Properties of the Lab CSS text *)

Section LabCssFacts.
Local Open Scope R_scope.

Lemma SCALE_UP_css_range (x : R) :
  0 <= x <= 1 ->
  MIN_CSS_SCALE <= SCALE_UP x MIN_CSS_SCALE MAX_CSS_SCALE <= MAX_CSS_SCALE.
Proof. unfold SCALE_UP, MIN_CSS_SCALE, MAX_CSS_SCALE. lra. Qed.

Lemma luma_read_back (x : R) : x * LUMA_SCALE / LUMA_SCALE = x.
Proof. unfold LUMA_SCALE. field. Qed.

Lemma chroma_read_back (x : R) :
  (SCALE_UP x MIN_CSS_SCALE MAX_CSS_SCALE / MAX_CSS_SCALE + 1) / 2 = x.
Proof. unfold SCALE_UP, MIN_CSS_SCALE, MAX_CSS_SCALE. field. Qed.

Lemma opacity_read_back (x : R) : x / 1 = x.
Proof. field. Qed.

Lemma toString_3 (a b c : R) (opacity : bool) :
  toString [a; b; c] opacity =
    ("lab"%string,
     [CssNumber (a * LUMA_SCALE) "";
      CssNumber (SCALE_UP b MIN_CSS_SCALE MAX_CSS_SCALE) "";
      CssNumber (SCALE_UP c MIN_CSS_SCALE MAX_CSS_SCALE) "";
      CssClose]).
Proof. unfold toString. rewrite andb_false_r. reflexivity. Qed.

Lemma toString_4 (a b c d : R) (opacity : bool) :
  toString [a; b; c; d] opacity =
    ("lab"%string,
     [CssNumber (a * LUMA_SCALE) "";
      CssNumber (SCALE_UP b MIN_CSS_SCALE MAX_CSS_SCALE) "";
      CssNumber (SCALE_UP c MIN_CSS_SCALE MAX_CSS_SCALE) ""]
     ++ (if opacity then [CssSeparator "/"; CssNumber d ""] else [])
     ++ [CssClose]).
Proof. destruct opacity; reflexivity. Qed.

Lemma parse_toString_3 (a b c : R) (opacity : bool) :
  parse (toString [a; b; c] opacity).2 [] = (true, [a; b; c]).
Proof.
  rewrite toString_3. cbn.
  rewrite luma_read_back, !chroma_read_back. reflexivity.
Qed.

Lemma parse_toString_4 (a b c d : R) (opacity : bool) :
  parse (toString [a; b; c; d] opacity).2 []
  = (true, if opacity then [a; b; c; d] else [a; b; c]).
Proof.
  rewrite toString_4. destruct opacity; cbn.
  - rewrite luma_read_back, !chroma_read_back, opacity_read_back. reflexivity.
  - rewrite luma_read_back, !chroma_read_back. reflexivity.
Qed.

(** The CSS scale and the scale of the calculations give different
    numbers for every chroma value but the middle one. *)
Lemma css_scale_is_not_internal (x : R) :
  x <> 0.5 ->
  SCALE_UP x MIN_CSS_SCALE MAX_CSS_SCALE <> SCALE_UP x MIN_SCALE MAX_SCALE.
Proof.
  unfold SCALE_UP, MIN_CSS_SCALE, MAX_CSS_SCALE, MIN_SCALE, MAX_SCALE. lra.
Qed.

Lemma toString_name (v : list R) (opacity : bool) :
  (toString v opacity).1 = "lab"%string.
Proof.
  unfold toString. destruct (opacity && bool_decide (length v = 4%nat)); reflexivity.
Qed.

(** The three channel numbers of the text. *)
Lemma toString_channels (a b c : R) (tl : list R) (opacity : bool) :
  exists rest,
    (toString (a :: b :: c :: tl) opacity).2
    = CssNumber (a * LUMA_SCALE) ""
      :: CssNumber (SCALE_UP b MIN_CSS_SCALE MAX_CSS_SCALE) ""
      :: CssNumber (SCALE_UP c MIN_CSS_SCALE MAX_CSS_SCALE) "" :: rest.
Proof.
  unfold toString.
  destruct (opacity && bool_decide (length (a :: b :: c :: tl) = 4%nat));
    eexists; reflexivity.
Qed.

(** C3: the text [Lab::toString] prints for a valid normalised vector is
    read back by [Lab::Parser::parse] as that very vector (without its
    opacity when the opacity was not printed), the bounds 0 and 1 included;
    the two chroma numbers in the text are on the CSS scale from -125 to
    125, not on the scale from -128 to 128 of the calculations. *)
Theorem lab_css_round_trip (v : list R) (opacity : bool) :
  (length v = 3 \/ length v = 4)%nat ->
  Forall (fun x => 0 <= x <= 1) v ->
  (toString v opacity).1 = "lab"%string /\
  parse (toString v opacity).2 [] = (true, if opacity then v else take 3 v) /\
  exists luma a_css b_css rest,
    (toString v opacity).2
      = CssNumber luma "" :: CssNumber a_css "" :: CssNumber b_css "" :: rest /\
    luma = vget v 0 * LUMA_SCALE /\
    a_css = SCALE_UP (vget v 1) MIN_CSS_SCALE MAX_CSS_SCALE /\
    b_css = SCALE_UP (vget v 2) MIN_CSS_SCALE MAX_CSS_SCALE /\
    -125 <= a_css <= 125 /\ -125 <= b_css <= 125 /\
    (vget v 1 <> 0.5 -> a_css <> SCALE_UP (vget v 1) MIN_SCALE MAX_SCALE) /\
    (vget v 2 <> 0.5 -> b_css <> SCALE_UP (vget v 2) MIN_SCALE MAX_SCALE).
Proof.
  intros Hlen Hrange.
  destruct v as [|a [|b [|c tl]]]; cbn in Hlen;
    try (exfalso; destruct Hlen; discriminate).
  apply Forall_cons in Hrange as [_ Hrange].
  apply Forall_cons in Hrange as [Hb Hrange].
  apply Forall_cons in Hrange as [Hc _].
  split; [| split].
  - apply toString_name.
  - destruct tl as [|d [|e tl]]; cbn in Hlen;
      try (exfalso; destruct Hlen; discriminate).
    + rewrite parse_toString_3. now destruct opacity.
    + rewrite parse_toString_4. now destruct opacity.
  - destruct (toString_channels a b c tl opacity) as [rest Htext].
    exists (a * LUMA_SCALE), (SCALE_UP b MIN_CSS_SCALE MAX_CSS_SCALE),
      (SCALE_UP c MIN_CSS_SCALE MAX_CSS_SCALE), rest.
    split; [exact Htext |]. split; [reflexivity |].
    split; [reflexivity |]. split; [reflexivity |].
    split; [apply (SCALE_UP_css_range b Hb) |].
    split; [apply (SCALE_UP_css_range c Hc) |].
    split; apply css_scale_is_not_internal.
Qed.

End LabCssFacts.

(** * Properties of Lab *)

Section LabScalars.
Local Open Scope R_scope.

(** [pow(x^3, 0.33333)] is [x] up to the factor [x ^ -0.00001]. *)
Lemma pow_double_cube (x : R) :
  0 < x -> pow_double (x ^ 3) 0.33333 = x * exp (- 0.00001 * ln x).
Proof.
  intros Hx. unfold pow_double, Rpower.
  rewrite ln_pow by assumption.
  replace (0.33333 * (INR 3 * ln x)) with (ln x + - 0.00001 * ln x)
    by (cbn [INR]; lra).
  rewrite exp_plus, exp_ln by assumption. reflexivity.
Qed.

Lemma ln_upper (x : R) : 0 < x -> ln x <= x - 1.
Proof.
  intros Hx. pose proof (exp_ineq1_le (ln x)) as H.
  rewrite exp_ln in H by assumption. lra.
Qed.

Lemma ln_lower (x : R) : 0 < x -> 1 - / x <= ln x.
Proof.
  intros Hx. pose proof (exp_ineq1_le (- ln x)) as H.
  rewrite exp_Ropp, exp_ln in H by assumption. lra.
Qed.

Lemma exp_upper (u : R) : exp u * (1 - u) <= 1.
Proof.
  pose proof (exp_ineq1_le (- u)) as H. rewrite exp_Ropp in H.
  pose proof (exp_pos u) as Hpos.
  apply (Rmult_le_compat_l (exp u)) in H; [| lra].
  rewrite Rinv_r in H by lra. lra.
Qed.

Lemma Rabs_bounds (a b : R) : Rabs a <= b <-> - b <= a <= b.
Proof.
  split; [| apply Rabs_le].
  unfold Rabs. destruct (Rcase_abs a); lra.
Qed.

Lemma cube_above (x : R) : -0.6 <= x <= 1.7 -> 0.008856 < x ^ 3 -> 0.2 <= x.
Proof.
  intros Hx Hcube. destruct (Rle_dec 0.2 x) as [|Hn]; [assumption | exfalso].
  assert (x < 0.2) by lra.
  assert (x ^ 3 <= 0.008).
  { replace (x ^ 3) with (0.008 + (x - 0.2) * (x * x + 0.2 * x + 0.04)) by nra.
    assert (0 <= x * x + 0.2 * x + 0.04) by nra. nra. }
  lra.
Qed.

Lemma cube_below (x c : R) : 0 <= c -> x ^ 3 <= c ^ 3 -> x <= c.
Proof.
  intros Hc Hcube. destruct (Rle_dec x c) as [|Hn]; [assumption | exfalso].
  assert (Hlt : c < x) by lra.
  assert (c ^ 3 < x ^ 3); [| lra].
  replace (x ^ 3) with (c ^ 3 + (x - c) * (x * x + x * c + c * c)) by nra.
  assert (0 < x * x + x * c + c * c) by nra. nra.
Qed.

(** [ln] read at a point [c]: the tangent of [ln] at [c] lies above it. *)
Lemma t_ln_t_lower (c t : R) : 0 < c -> 0 < t -> t - c + t * ln c <= t * ln t.
Proof.
  intros Hc Ht.
  assert (Htc : 0 < t * / c) by (apply Rmult_lt_0_compat; [| apply Rinv_0_lt_compat]; lra).
  pose proof (ln_lower (t * / c) Htc) as H.
  rewrite ln_mult, ln_Rinv in H by (try apply Rinv_0_lt_compat; lra).
  rewrite Rinv_mult, Rinv_inv in H.
  apply (Rmult_le_compat_l t) in H; [| lra].
  replace (t * (1 - / t * c)) with (t - t * / t * c) in H by ring.
  rewrite Rinv_r in H by lra. lra.
Qed.

Lemma ln_2_upper : ln 2 <= 0.76.
Proof.
  assert (H : ln 2 < ln (1.19 ^ 4)) by (apply ln_increasing; lra).
  rewrite ln_pow in H by lra. pose proof (ln_upper 1.19 ltac:(lra)) as H'.
  cbn [INR] in H. lra.
Qed.

(** The error of reading a cube back through the exponent 0.33333, against
    [t * ln t]. *)
Lemma pow_double_cube_error (t : R) :
  0.2 <= t <= 1.7 ->
  (t <= 1 ->
   0 <= pow_double (t ^ 3) 0.33333 - t <= 0.000010001 * - (t * ln t)) /\
  (1 <= t ->
   0.00001 * - (t * ln t) <= pow_double (t ^ 3) 0.33333 - t <= 0).
Proof.
  intros [Hlo Hhi]. assert (Ht : 0 < t) by lra.
  rewrite pow_double_cube by assumption.
  pose proof (ln_upper t Ht) as Hup.
  pose proof (ln_lower t Ht) as Hdown.
  assert (Hinv : / t <= 5).
  { replace 5 with (/ 0.2) by lra. apply Rinv_le_contravar; lra. }
  assert (Hinv1 : 1 <= t -> / t <= 1).
  { intros H1. rewrite <- Rinv_1. apply Rinv_le_contravar; lra. }
  set (l := ln t) in *. set (u := - 0.00001 * l).
  pose proof (exp_ineq1_le u) as HE1.
  pose proof (exp_upper u) as HE2.
  pose proof (exp_pos u) as HE0.
  set (E := exp u) in *.
  assert (Hu : -0.000007 <= u <= 0.00004) by (unfold u; lra).
  split.
  - intros H1. assert (Hl : l <= 0) by lra. assert (0 <= u) by (unfold u; lra).
    assert (HE3 : E - 1 <= 1.0001 * u) by nra.
    split; [nra |].
    replace (0.000010001 * - (t * l)) with (t * (1.0001 * u)) by (unfold u; lra).
    replace (t * E - t) with (t * (E - 1)) by ring.
    apply Rmult_le_compat_l; lra.
  - intros H1. specialize (Hinv1 H1). assert (Hl : 0 <= l) by lra.
    assert (u <= 0) by (unfold u; lra).
    assert (HE3 : E <= 1) by nra.
    split; [| nra].
    replace (0.00001 * - (t * l)) with (t * u) by (unfold u; lra).
    replace (t * E - t) with (t * (E - 1)) by ring.
    apply Rmult_le_compat_l; lra.
Qed.

(** The same error against plain bounds. *)
Lemma pow_double_cube_bounds (t : R) :
  0.2 <= t <= 1.7 ->
  (t <= 1 ->
   0 <= pow_double (t ^ 3) 0.33333 - t <= 0.0000043 /\
   pow_double (t ^ 3) 0.33333 - t <= 0.000010001 * (0.25 + 0.52 * t) /\
   pow_double (t ^ 3) 0.33333 - t <= 0.000010001 * (1 - t)) /\
  (1 <= t ->
   - (0.00001 * (t * (t - 1))) <= pow_double (t ^ 3) 0.33333 - t <= 0).
Proof.
  intros Ht. destruct (pow_double_cube_error t Ht) as [Hbelow Habove].
  assert (Hpos : 0 < t) by lra.
  pose proof (t_ln_t_lower 1 t ltac:(lra) Hpos) as H1.
  pose proof (t_ln_t_lower (/ 2) t ltac:(lra) Hpos) as H2.
  pose proof (t_ln_t_lower (/ 4) t ltac:(lra) Hpos) as H4.
  rewrite ln_1 in H1. rewrite ln_Rinv in H2, H4 by lra.
  replace 4 with (2 * 2) in H4 by lra. rewrite ln_mult in H4 by lra.
  pose proof ln_2_upper as Hln2.
  assert (Hln2t : t * ln 2 <= t * 0.76) by (apply Rmult_le_compat_l; lra).
  pose proof (ln_upper t Hpos) as Hup.
  split.
  - intros Hle. specialize (Hbelow Hle). repeat split; lra.
  - intros Hge. specialize (Habove Hge).
    assert (t * ln t <= t * (t - 1)) by (apply Rmult_le_compat_l; lra).
    lra.
Qed.


(** The error of one channel through [toXYZ] and back: never negative by
    more than 1e-7, never above 4.4e-6 up to 1, shrinking towards 1, and
    negative above 1. *)
Lemma lab_f_error (t : R) :
  -0.6 <= t <= 1.7 ->
  (t <= 1 -> - 0.0000001 <= lab_f (lab_f_inv t) - t <= 0.0000044) /\
  (0.21 <= t <= 1 -> 0 <= lab_f (lab_f_inv t) - t <= 0.000010001 * (1 - t)) /\
  (1 <= t -> - (0.00001 * (t * (t - 1))) <= lab_f (lab_f_inv t) - t <= 0).
Proof.
  intros Ht. unfold lab_f_inv.
  destruct (Rlt_dec 0.008856 (t ^ 3)) as [Hcube|Hcube].
  - (* the cube is above the threshold, and so read back by the power *)
    unfold lab_f. destruct (Rlt_dec 0.008856 (t ^ 3)); [| contradiction].
    pose proof (cube_above t Ht Hcube).
    destruct (pow_double_cube_bounds t ltac:(lra)) as [Hbelow Habove].
    repeat split; intros; try (specialize (Hbelow ltac:(lra)));
      try (specialize (Habove ltac:(lra))); lra.
  - assert (Hhi : t <= 0.2068931) by (apply cube_below; lra).
    unfold lab_f.
    destruct (Rlt_dec 0.008856 ((t - 16.0 / 116.0) / 7.787)) as [Hlin|Hlin].
    + (* the linear segment ends just above the threshold *)
      assert (Hlo : 0.2068927 < t) by lra.
      assert (Hg : (t - 16.0 / 116.0) / 7.787 < 0.0088560506) by lra.
      set (g := (t - 16.0 / 116.0) / 7.787) in *.
      destruct (pow_double_cube_bounds 0.206893 ltac:(lra)) as [Ha _].
      destruct (pow_double_cube_bounds 0.2068935 ltac:(lra)) as [Hb _].
      specialize (Ha ltac:(lra)). specialize (Hb ltac:(lra)).
      assert (H1 : pow_double (0.206893 ^ 3) 0.33333 < pow_double g 0.33333).
      { apply Rlt_Rpower_l; lra. }
      assert (H2 : pow_double g 0.33333 < pow_double (0.2068935 ^ 3) 0.33333).
      { apply Rlt_Rpower_l; lra. }
      repeat split; intros; lra.
    + repeat split; intros; lra.
Qed.

(** The error of the lightness through [toXYZ] and back, on the scale 0 to
    100. *)
Lemma lab_luma_error (a : R) :
  0 <= a <= 1 ->
  - 0.00002
  <= lab_luma (lab_f_inv ((SCALE_UP a 0 LUMA_SCALE + 16.0) / 116.0))
     - SCALE_UP a 0 LUMA_SCALE
  <= 0.00052.
Proof.
  intros Ha. unfold SCALE_UP, LUMA_SCALE.
  set (y := (a * (100 - 0) + 0 + 16.0) / 116.0).
  assert (Hy : 16 / 116 <= y <= 1) by (unfold y; lra).
  replace (a * (100 - 0) + 0) with (116 * y - 16) by (unfold y; lra).
  destruct (lab_f_error y ltac:(lra)) as [Hround _].
  specialize (Hround ltac:(lra)).
  unfold lab_luma. unfold lab_f in Hround.
  destruct (Rlt_dec 0.008856 (lab_f_inv y)) as [Hbig|Hsmall].
  - lra.
  - clear Hround. unfold lab_f_inv in *.
    destruct (Rlt_dec 0.008856 (y ^ 3)) as [|Hcube]; [contradiction |].
    assert (Hhi : y <= 0.2068931) by (apply cube_below; lra).
    lra.
Qed.

End LabScalars.

Section LabFacts.
Local Open Scope R_scope.
Variable d65 : nat -> R.


Lemma vget_vset v i x : (i < length v)%nat -> vget (vset v i x) i = x.
Proof.
  intros Hi. unfold vget, vset.
  apply nth_lookup_Some with (d := 0). now apply list_lookup_insert_eq.
Qed.

Lemma vset_vset v i x y : vset (vset v i x) i y = vset v i y.
Proof. apply list_insert_insert_eq. Qed.

Lemma length_vset v i x : length (vset v i x) = length v.
Proof. apply length_insert. Qed.

Lemma toXYZ_channel_eq v i :
  (i < length v)%nat ->
  toXYZ_channel d65 v i = vset v i (lab_f_inv (vget v i) * d65 i).
Proof.
  intros Hi. unfold toXYZ_channel, lab_f_inv.
  destruct (Rlt_dec _ _); rewrite vget_vset, vset_vset by assumption; reflexivity.
Qed.

Lemma fromXYZ_channel_eq v i :
  fromXYZ_channel v i = vset v i (lab_f (vget v i)).
Proof. unfold fromXYZ_channel, lab_f. destruct (Rlt_dec _ _); reflexivity. Qed.

Lemma toXYZ_cons a b c tl :
  toXYZ d65 (a :: b :: c :: tl) =
    let y := (SCALE_UP a 0 LUMA_SCALE + 16.0) / 116.0 in
    lab_f_inv (SCALE_UP b MIN_SCALE MAX_SCALE / 500.0 + y) * d65 0%nat
    :: lab_f_inv y * d65 1%nat
    :: lab_f_inv (y - SCALE_UP c MIN_SCALE MAX_SCALE / 200.0) * d65 2%nat :: tl.
Proof.
  unfold toXYZ, scaleUp, vset, vget. cbn [nth insert list_insert fold_left seq].
  rewrite (toXYZ_channel_eq (_ :: _) 0) by (cbn; lia).
  unfold vset, vget. cbn [nth insert list_insert].
  rewrite (toXYZ_channel_eq (_ :: _) 1) by (cbn; lia).
  unfold vset, vget. cbn [nth insert list_insert].
  rewrite (toXYZ_channel_eq (_ :: _) 2) by (cbn; lia).
  reflexivity.
Qed.

Lemma fromXYZ_cons x y z tl :
  fromXYZ d65 (x :: y :: z :: tl) =
    let fx := lab_f (x / d65 0%nat) in
    let fy := lab_f (y / d65 1%nat) in
    let fz := lab_f (z / d65 2%nat) in
    SCALE_DOWN (lab_luma (y / d65 1%nat)) 0 LUMA_SCALE
    :: SCALE_DOWN (500 * (fx - fy)) MIN_SCALE MAX_SCALE
    :: SCALE_DOWN (200 * (fy - fz)) MIN_SCALE MAX_SCALE :: tl.
Proof.
  unfold fromXYZ, scaleDown, fromXYZ_white. cbn [fold_left seq].
  rewrite !fromXYZ_channel_eq. reflexivity.
Qed.

Hypothesis d65_nonzero : forall i, (i < 3)%nat -> d65 i <> 0.

Lemma white_cancels (x : R) (i : nat) : (i < 3)%nat -> x * d65 i / d65 i = x.
Proof. intros Hi. field. now apply d65_nonzero. Qed.

Lemma fromXYZ_toXYZ_cons a b c tl :
  fromXYZ d65 (toXYZ d65 (a :: b :: c :: tl)) =
    let y := (SCALE_UP a 0 LUMA_SCALE + 16.0) / 116.0 in
    let fx := lab_f (lab_f_inv (SCALE_UP b MIN_SCALE MAX_SCALE / 500.0 + y)) in
    let fy := lab_f (lab_f_inv y) in
    let fz := lab_f (lab_f_inv (y - SCALE_UP c MIN_SCALE MAX_SCALE / 200.0)) in
    SCALE_DOWN (lab_luma (lab_f_inv y)) 0 LUMA_SCALE
    :: SCALE_DOWN (500 * (fx - fy)) MIN_SCALE MAX_SCALE
    :: SCALE_DOWN (200 * (fy - fz)) MIN_SCALE MAX_SCALE :: tl.
Proof.
  rewrite toXYZ_cons. cbv zeta. rewrite fromXYZ_cons. cbv zeta.
  rewrite !white_cancels by lia. reflexivity.
Qed.

Lemma round_trip_cons a b c tl :
  0 <= a <= 1 -> 0 <= b <= 1 -> 0 <= c <= 1 ->
  within 0.00001 (fromXYZ d65 (toXYZ d65 (a :: b :: c :: tl))) (a :: b :: c :: tl) /\
  drop 3 (fromXYZ d65 (toXYZ d65 (a :: b :: c :: tl))) = tl.
Proof.
  intros Ha Hb Hc. rewrite fromXYZ_toXYZ_cons. cbv zeta.
  split; [| reflexivity].
  pose proof (lab_luma_error a Ha) as Hl.
  set (y := (SCALE_UP a 0 LUMA_SCALE + 16.0) / 116.0) in *.
  assert (Hy : 16 / 116 <= y <= 1) by (unfold y, SCALE_UP, LUMA_SCALE; lra).
  destruct (lab_f_error y ltac:(lra)) as (Hy1 & Hy2 & _).
  specialize (Hy1 ltac:(lra)).
  split; [reflexivity |].
  intros [|[|[|i]]] Hi; unfold vget; cbn [nth]; apply Rabs_bounds.
  - unfold SCALE_DOWN, SCALE_UP, LUMA_SCALE in *. lra.
  - (* a: the first channel lies at most 0.256 from [y] *)
    assert (Hd : -0.256 <= SCALE_UP b MIN_SCALE MAX_SCALE / 500.0 <= 0.256)
      by (unfold SCALE_UP, MIN_SCALE, MAX_SCALE; lra).
    replace (SCALE_DOWN _ MIN_SCALE MAX_SCALE - b)
      with (500 / 256 *
            ((lab_f (lab_f_inv (SCALE_UP b MIN_SCALE MAX_SCALE / 500.0 + y))
              - (SCALE_UP b MIN_SCALE MAX_SCALE / 500.0 + y))
             - (lab_f (lab_f_inv y) - y)))
      by (unfold SCALE_DOWN, SCALE_UP, MIN_SCALE, MAX_SCALE; lra).
    set (x := SCALE_UP b MIN_SCALE MAX_SCALE / 500.0 + y) in *.
    destruct (lab_f_error x ltac:(unfold x; lra)) as (Hx1 & _ & Hx3).
    destruct (Rle_dec x 1) as [Hle|Hgt].
    + specialize (Hx1 Hle). lra.
    + specialize (Hx3 ltac:(lra)). specialize (Hy2 ltac:(unfold x in Hgt; lra)).
      assert (x * (x - 1) <= 1.256 * (x - 1)) by (unfold x in *; nra).
      unfold x in *. lra.
  - (* b: the third channel lies at most 0.64 from [y] *)
    assert (Hd : -0.64 <= SCALE_UP c MIN_SCALE MAX_SCALE / 200.0 <= 0.64)
      by (unfold SCALE_UP, MIN_SCALE, MAX_SCALE; lra).
    replace (SCALE_DOWN _ MIN_SCALE MAX_SCALE - c)
      with (200 / 256 *
            ((lab_f (lab_f_inv y) - y)
             - (lab_f (lab_f_inv (y - SCALE_UP c MIN_SCALE MAX_SCALE / 200.0))
                - (y - SCALE_UP c MIN_SCALE MAX_SCALE / 200.0))))
      by (unfold SCALE_DOWN, SCALE_UP, MIN_SCALE, MAX_SCALE; lra).
    set (z := y - SCALE_UP c MIN_SCALE MAX_SCALE / 200.0) in *.
    destruct (lab_f_error z ltac:(unfold z; lra)) as (Hz1 & _ & Hz3).
    destruct (Rle_dec z 1) as [Hle|Hgt].
    + specialize (Hz1 Hle). lra.
    + specialize (Hz3 ltac:(lra)). specialize (Hy2 ltac:(unfold z in Hgt; lra)).
      assert (z * (z - 1) <= 1.64 * (z - 1)) by (unfold z in *; nra).
      unfold z in *. lra.
  - rewrite Rminus_diag. lra.
Qed.

(** C2 (as the code has it): decoding after encoding returns a valid
    normalised Lab vector within 0.00001 in each of the three channels, and
    returns what follows them (the opacity) as it was. *)
Theorem lab_round_trip (v : list R) :
  (length v = 3 \/ length v = 4)%nat ->
  Forall (fun x => 0 <= x <= 1) v ->
  within 0.00001 (fromXYZ d65 (toXYZ d65 v)) v /\
  drop 3 (fromXYZ d65 (toXYZ d65 v)) = drop 3 v.
Proof.
  intros Hlen Hrange.
  destruct v as [|a [|b [|c tl]]]; cbn in Hlen;
    try (exfalso; destruct Hlen; discriminate).
  apply Forall_cons in Hrange as [Ha Hrange].
  apply Forall_cons in Hrange as [Hb Hrange].
  apply Forall_cons in Hrange as [Hc _].
  now apply round_trip_cons.
Qed.

End LabFacts.

Section LabInstances.
Local Open Scope R_scope.

Lemma d65_white_nonzero (i : nat) : (i < 3)%nat -> d65_white i <> 0.
Proof.
  intros Hi. destruct i as [|[|[|i]]]; unfold d65_white; cbn [nth]; try lra. lia.
Qed.

(** C2 at mid grey with an opacity. *)
Lemma lab_round_trip_witness :
  (length [0.5; 0.5; 0.5; 0.8] = 3%nat \/ length [0.5; 0.5; 0.5; 0.8] = 4%nat) /\
  Forall (fun x => 0 <= x <= 1) [0.5; 0.5; 0.5; 0.8] /\
  within 0.00001
    (fromXYZ d65_white (toXYZ d65_white [0.5; 0.5; 0.5; 0.8])) [0.5; 0.5; 0.5; 0.8] /\
  drop 3 (fromXYZ d65_white (toXYZ d65_white [0.5; 0.5; 0.5; 0.8])) = [0.8].
Proof.
  assert (Hlen : (length [0.5; 0.5; 0.5; 0.8] = 3%nat \/
                  length [0.5; 0.5; 0.5; 0.8] = 4%nat))
    by (right; reflexivity).
  assert (Hrange : Forall (fun x => 0 <= x <= 1) [0.5; 0.5; 0.5; 0.8])
    by (repeat constructor; lra).
  split; [exact Hlen |]. split; [exact Hrange |].
  exact (lab_round_trip d65_white d65_white_nonzero [0.5; 0.5; 0.5; 0.8] Hlen Hrange).
Defined.

(** C2, as stated, fails: at lightness 0.05 the luma channel is read back
    through the constant 903.3, which is not 116 * 7.787, and comes out more
    than 4e-7 too large, four hundred times the tolerance 1e-9. *)
Lemma lab_round_trip_not_1e9 :
  length [0.05; 0.5; 0.5] = 3%nat /\
  Forall (fun x => 0 <= x <= 1) [0.05; 0.5; 0.5] /\
  0.0000004 < vget (fromXYZ d65_white (toXYZ d65_white [0.05; 0.5; 0.5])) 0 - 0.05 /\
  ~ within 0.000000001
      (fromXYZ d65_white (toXYZ d65_white [0.05; 0.5; 0.5])) [0.05; 0.5; 0.5].
Proof.
  assert (Hluma :
    0.0000004 < vget (fromXYZ d65_white (toXYZ d65_white [0.05; 0.5; 0.5])) 0 - 0.05).
  { rewrite (fromXYZ_toXYZ_cons d65_white d65_white_nonzero). cbv zeta.
    unfold vget. cbn [nth].
    unfold lab_luma, lab_f_inv, SCALE_DOWN, SCALE_UP, LUMA_SCALE.
    destruct (Rlt_dec 0.008856 (((0.05 * (100 - 0) + 0 + 16.0) / 116.0) ^ 3));
      [lra |].
    destruct (Rlt_dec 0.008856 _); lra. }
  split; [reflexivity |]. split; [repeat constructor; lra |].
  split; [exact Hluma |].
  intros [_ Hclose]. specialize (Hclose 0%nat ltac:(cbn; lia)).
  change (vget [0.05; 0.5; 0.5] 0) with 0.05 in Hclose.
  apply Rabs_bounds in Hclose. lra.
Qed.

End LabInstances.

Section LabCssInstances.
Local Open Scope R_scope.

(** C3 at a vector that holds both bounds and an opacity. *)
Lemma lab_css_round_trip_witness :
  (length [0; 1; 0.5; 1] = 3%nat \/ length [0; 1; 0.5; 1] = 4%nat) /\
  Forall (fun x => 0 <= x <= 1) [0; 1; 0.5; 1] /\
  (toString [0; 1; 0.5; 1] true).1 = "lab"%string /\
  parse (toString [0; 1; 0.5; 1] true).2 [] = (true, [0; 1; 0.5; 1]).
Proof.
  assert (Hlen : length [0; 1; 0.5; 1] = 3%nat \/ length [0; 1; 0.5; 1] = 4%nat)
    by (right; reflexivity).
  assert (Hrange : Forall (fun x => 0 <= x <= 1) [0; 1; 0.5; 1])
    by (repeat constructor; lra).
  split; [exact Hlen |]. split; [exact Hrange |].
  destruct (lab_css_round_trip [0; 1; 0.5; 1] true Hlen Hrange)
    as (Hname & Hparse & _).
  split; [exact Hname | exact Hparse].
Defined.

End LabCssInstances.

(** * Further properties of the caches *)

Section CacheGrowth.
Context `{cms : CmsLibrary}.
Implicit Types (self to_space : AnySpace) (io : list R) (st : Caches).

Lemma profileToProfile_stores self to_space io st :
  profile_eq (getProfile to_space) (getProfile self) = false ->
  _transforms (profileToProfile self to_space io st).2
    !! transform_key self to_space = Some (resolved_transform self to_space st).
Proof.
  intros Hne. rewrite (profileToProfile_differ _ _ _ _ Hne). cbv zeta.
  unfold resolved_transform.
  destruct (_transforms st !! transform_key self to_space) eqn:Hlook; cbn.
  - exact Hlook.
  - apply lookup_insert_eq.
Qed.

Lemma profileToProfile_gamut self to_space io st :
  _gamut_checkers (profileToProfile self to_space io st).2 = _gamut_checkers st.
Proof.
  destruct (profile_eq (getProfile to_space) (getProfile self)) eqn:Heq.
  - now rewrite (profileToProfile_same _ _ _ _ Heq).
  - rewrite (profileToProfile_differ _ _ _ _ Heq). cbv zeta.
    destruct (_transforms st !! _); reflexivity.
Qed.

(** One call of stage 2 adds at most one factory call, a request for a
    transform with the chosen intent. *)
Lemma profileToProfile_ledger self to_space io st :
  factory_calls (profileToProfile self to_space io st).2 = factory_calls st \/
  factory_calls (profileToProfile self to_space io st).2 =
    factory_calls st ++
    [CreateForCms (getProfile self) (getProfile to_space) (chooseIntent self to_space)].
Proof.
  destruct (profile_eq (getProfile to_space) (getProfile self)) eqn:Heq.
  - left. now rewrite (profileToProfile_same _ _ _ _ Heq).
  - rewrite (profileToProfile_differ _ _ _ _ Heq). cbv zeta.
    destruct (_transforms st !! _); [left | right]; reflexivity.
Qed.

(** The one-step unfolding of [outOfGamut] when the profiles differ. *)
Lemma outOfGamut_differ self to_space (input : list R) st :
  profile_eq (getProfile to_space) (getProfile self) = false ->
  outOfGamut self to_space input st =
    let id := getId (getProfile to_space) in
    let answer (checker : option GamutChecker) :=
      match checker with
      | Some c => Some (check_gamut c input)
      | None => None
      end in
    match _gamut_checkers st !! id with
    | Some checker => (answer checker, st)
    | None =>
        let checker :=
          create_for_cms_checker (getProfile self) (getProfile to_space) in
        (answer checker,
         {| _transforms := _transforms st;
            _gamut_checkers := <[id := checker]> (_gamut_checkers st);
            factory_calls :=
              factory_calls st ++
              [CreateForCmsChecker (getProfile self) (getProfile to_space)] |})
    end.
Proof.
  intros Hne. unfold outOfGamut. rewrite Hne. cbv zeta.
  destruct (_gamut_checkers st !! _) as [c|] eqn:Hlook.
  - rewrite Hlook. destruct c; reflexivity.
  - cbn [_gamut_checkers]. rewrite lookup_insert_eq.
    destruct (create_for_cms_checker _ _); reflexivity.
Qed.

Lemma outOfGamut_same self to_space (input : list R) st :
  profile_eq (getProfile to_space) (getProfile self) = true ->
  outOfGamut self to_space input st = (Some false, st).
Proof. intros Heq. unfold outOfGamut. now rewrite Heq. Qed.

Lemma outOfGamut_keeps self to_space (input : list R) st id checker :
  _gamut_checkers st !! id = Some checker ->
  _gamut_checkers (outOfGamut self to_space input st).2 !! id = Some checker.
Proof.
  intros Hid.
  destruct (profile_eq (getProfile to_space) (getProfile self)) eqn:Heq.
  - rewrite (outOfGamut_same _ _ _ _ Heq). exact Hid.
  - rewrite (outOfGamut_differ _ _ _ _ Heq). cbv zeta.
    destruct (_gamut_checkers st !! getId (getProfile to_space)) eqn:Hlook; cbn.
    + exact Hid.
    + rewrite lookup_insert_ne; [exact Hid | congruence].
Qed.

Lemma outOfGamut_ledger self to_space (input : list R) st :
  factory_calls (outOfGamut self to_space input st).2 = factory_calls st \/
  factory_calls (outOfGamut self to_space input st).2 =
    factory_calls st ++
    [CreateForCmsChecker (getProfile self) (getProfile to_space)].
Proof.
  destruct (profile_eq (getProfile to_space) (getProfile self)) eqn:Heq.
  - left. now rewrite (outOfGamut_same _ _ _ _ Heq).
  - rewrite (outOfGamut_differ _ _ _ _ Heq). cbv zeta.
    destruct (_gamut_checkers st !! _); [left | right]; reflexivity.
Qed.

Lemma calls_since_keeps_checker self st st' id checker :
  calls_since self st st' ->
  _gamut_checkers st !! id = Some checker ->
  _gamut_checkers st' !! id = Some checker.
Proof.
  induction 1 as [|st' to_space io _ IH|st' to_space io _ IH|st' to_space input _ IH];
    intros Hid.
  - exact Hid.
  - rewrite profileToProfile_gamut. apply IH, Hid.
  - rewrite convert_caches, profileToProfile_gamut. apply IH, Hid.
  - apply outOfGamut_keeps, IH, Hid.
Qed.

(** X1: every cache entry and every ledger entry survives all later calls:
    cached transforms and checkers are never replaced or dropped, and the
    ledger of factory calls is only ever extended. *)
Theorem caches_only_grow self st st' :
  calls_since self st st' ->
  _transforms st ⊆ _transforms st' /\
  _gamut_checkers st ⊆ _gamut_checkers st' /\
  factory_calls st `prefix_of` factory_calls st'.
Proof.
  intros Hsince. split; [| split].
  - apply map_subseteq_spec. intros key tr Hkey.
    exact (calls_since_keeps _ _ _ _ _ Hsince Hkey).
  - apply map_subseteq_spec. intros id checker Hid.
    exact (calls_since_keeps_checker _ _ _ _ _ Hsince Hid).
  - induction Hsince as [|st' to_space io _ IH|st' to_space io _ IH|st' to_space input _ IH].
    + reflexivity.
    + destruct (profileToProfile_ledger self to_space io st') as [-> | ->];
        [exact IH | now apply prefix_app_r].
    + rewrite convert_caches.
      destruct (profileToProfile_ledger self to_space (spaceToProfile self io) st')
        as [-> | ->]; [exact IH | now apply prefix_app_r].
    + destruct (outOfGamut_ledger self to_space input st') as [-> | ->];
        [exact IH | now apply prefix_app_r].
Qed.

(** X2: a transform is built at most once per key.  After a first conversion
    towards a destination with another profile, every later conversion under
    the same key applies the transform stored by the first one and leaves
    the caches and the ledger as they are. *)
Theorem transform_built_once self to_space io st st' to_space' io' :
  profile_eq (getProfile to_space) (getProfile self) = false ->
  calls_since self (profileToProfile self to_space io st).2 st' ->
  profile_eq (getProfile to_space') (getProfile self) = false ->
  transform_key self to_space' = transform_key self to_space ->
  profileToProfile self to_space' io' st'
  = (applyTransform (resolved_transform self to_space st) io', st').
Proof.
  intros Hne Hsince Hne' Hkey.
  pose proof (profileToProfile_stores self to_space io st Hne) as Hstored.
  rewrite (profileToProfile_differ _ _ _ _ Hne'). cbv zeta.
  rewrite Hkey, (calls_since_keeps _ _ _ _ _ Hsince Hstored). reflexivity.
Qed.

(** X3: the factory is never asked for a transform with an unknown intent. *)
Theorem factory_intent_known self st st' :
  calls_since self st st' ->
  Forall known_intent (factory_calls st) ->
  Forall known_intent (factory_calls st').
Proof.
  assert (Hknown : forall to_space, chooseIntent self to_space <> UNKNOWN).
  { intros to_space. unfold chooseIntent.
    destruct (getIntent self), (getIntent to_space); cbn; discriminate. }
  induction 1 as [|st' to_space io _ IH|st' to_space io _ IH|st' to_space input _ IH];
    intros Hst.
  - exact Hst.
  - destruct (profileToProfile_ledger self to_space io st') as [-> | ->]; [auto |].
    apply Forall_app. split; [auto |]. constructor; [apply Hknown | constructor].
  - rewrite convert_caches.
    destruct (profileToProfile_ledger self to_space (spaceToProfile self io) st')
      as [-> | ->]; [auto |].
    apply Forall_app. split; [auto |]. constructor; [apply Hknown | constructor].
  - destruct (outOfGamut_ledger self to_space input st') as [-> | ->]; [auto |].
    apply Forall_app. split; [auto |]. constructor; [exact I | constructor].
Qed.

(** X4: the three stages compose.  When the profiles differ and a transform
    is cached or can be built, [convert] applies it to the encoded vector and
    decodes with the destination on success, with the source on failure. *)
Theorem convert_pipeline self to_space io st tr :
  profile_eq (getProfile to_space) (getProfile self) = false ->
  resolved_transform self to_space st = Some tr ->
  convert self to_space io st =
    (let '(ok, io') := do_transform tr (spaceToProfile self io) in
     (ok, if ok then profileToSpace to_space io' else profileToSpace self io'),
     (profileToProfile self to_space (spaceToProfile self io) st).2).
Proof.
  intros Hne Htr. unfold convert.
  rewrite (profileToProfile_differ _ _ _ _ Hne). cbv zeta.
  unfold resolved_transform in Htr.
  destruct (_transforms st !! transform_key self to_space) as [cached|] eqn:Hlook.
  - subst cached. cbn.
    destruct (do_transform tr (spaceToProfile self io)) as [[] io']; reflexivity.
  - rewrite Htr. cbn.
    destruct (do_transform tr (spaceToProfile self io)) as [[] io']; reflexivity.
Qed.

(** X5: a gamut checker is built at most once per destination profile id,
    whatever the intents of the spaces.  Every later query towards a space
    with that profile id uses the checker stored by the first query, calls no
    factory, and has no defined answer if that checker is null. *)
Theorem gamut_checker_built_once self to_space (input : list R) st st' to_space'
    (input' : list R) :
  profile_eq (getProfile to_space) (getProfile self) = false ->
  calls_since self (outOfGamut self to_space input st).2 st' ->
  profile_eq (getProfile to_space') (getProfile self) = false ->
  getId (getProfile to_space') = getId (getProfile to_space) ->
  exists checker,
    _gamut_checkers (outOfGamut self to_space input st).2
      !! getId (getProfile to_space) = Some checker /\
    outOfGamut self to_space' input' st'
    = (match checker with
       | Some c => Some (check_gamut c input')
       | None => None
       end, st').
Proof.
  intros Hne Hsince Hne' Hid.
  assert (Hstored : exists checker,
    _gamut_checkers (outOfGamut self to_space input st).2
      !! getId (getProfile to_space) = Some checker).
  { rewrite (outOfGamut_differ _ _ _ _ Hne). cbv zeta.
    destruct (_gamut_checkers st !! getId (getProfile to_space)) eqn:Hlook; cbn.
    - eauto.
    - rewrite lookup_insert_eq. eauto. }
  destruct Hstored as [checker Hstored]. exists checker. split; [exact Hstored |].
  rewrite (outOfGamut_differ _ _ _ _ Hne'). cbv zeta.
  rewrite Hid, (calls_since_keeps_checker _ _ _ _ _ Hsince Hstored). reflexivity.
Qed.

(** X6: [outOfGamut] does not test the checker for null.  When the checker
    cannot be built on a miss, the query has no defined answer, and the null
    stays cached. *)
Theorem outOfGamut_null_checker self to_space (input : list R) st :
  profile_eq (getProfile to_space) (getProfile self) = false ->
  _gamut_checkers st !! getId (getProfile to_space) = None ->
  create_for_cms_checker (getProfile self) (getProfile to_space) = None ->
  (outOfGamut self to_space input st).1 = None /\
  _gamut_checkers (outOfGamut self to_space input st).2
    !! getId (getProfile to_space) = Some None.
Proof.
  intros Hne Hmiss Hnull. rewrite (outOfGamut_differ _ _ _ _ Hne). cbv zeta.
  rewrite Hmiss, Hnull. cbn. split; [reflexivity | apply lookup_insert_eq].
Qed.

(** X7: each cache belongs to one operation.  [profileToProfile] and
    [convert] leave the gamut checkers alone, and [outOfGamut] leaves the
    transforms alone. *)
Theorem caches_are_separate self to_space io st :
  _gamut_checkers (profileToProfile self to_space io st).2 = _gamut_checkers st /\
  _gamut_checkers (convert self to_space io st).2 = _gamut_checkers st /\
  _transforms (outOfGamut self to_space io st).2 = _transforms st.
Proof.
  split; [apply profileToProfile_gamut |]. split.
  - rewrite convert_caches. apply profileToProfile_gamut.
  - apply outOfGamut_transforms.
Qed.

End CacheGrowth.

(** * Further properties of the registry *)

Section RegistryMoreFacts.
Context `{cms : CmsLibrary}.
Variable same_instance : AnySpace -> AnySpace -> bool.
Implicit Types (m : Manager) (s : AnySpace).

Lemma filter_length_le {A} (p : A -> bool) (l : list A) :
  (length (List.filter p l) <= length l)%nat.
Proof. induction l as [|x l IH]; cbn; [lia |]. destruct (p x); cbn; lia. Qed.

Lemma filter_length_eq {A} (p : A -> bool) (l : list A) :
  length (List.filter p l) = length l <-> forall x, x ∈ l -> p x = true.
Proof.
  induction l as [|x l IH]; cbn.
  - split; [intros _ y Hy; inversion Hy | reflexivity].
  - pose proof (filter_length_le p l) as Hle. destruct (p x) eqn:Hx; cbn.
    + split.
      * intros Hlen y Hy. inversion Hy; subst; [assumption |].
        apply IH; [lia | assumption].
      * intros Hall. f_equal. apply IH. intros y Hy. apply Hall. now right.
    + split; [lia |]. intros Hall. rewrite (Hall x) in Hx by left. discriminate.
Qed.

Lemma elem_of_filter_bool {A} (p : A -> bool) (l : list A) (x : A) :
  x ∈ List.filter p l <-> x ∈ l /\ p x = true.
Proof. rewrite !list_elem_of_In. apply filter_In. Qed.

(** X8: [removeSpace] reports whether the instance was registered, and
    afterwards exactly the other registered instances are left. *)
Theorem removeSpace_spec m s :
  ((removeSpace same_instance m s).1 = true <->
   exists x, x ∈ _spaces m /\ same_instance x s = true) /\
  forall x,
    x ∈ _spaces (removeSpace same_instance m s).2 <->
    x ∈ _spaces m /\ same_instance x s = false.
Proof.
  unfold removeSpace. cbn. split.
  - set (p := fun v => negb (same_instance v s)).
    pose proof (filter_length_le p (_spaces m)) as Hle.
    pose proof (filter_length_eq p (_spaces m)) as Heq.
    rewrite negb_true_iff, Nat.eqb_neq. split.
    + intros Hlen.
      destruct (find_if (fun v => same_instance v s) (_spaces m)) as [x|] eqn:Hfind.
      * apply find_if_Some in Hfind as (before & after & -> & Hx & _).
        exists x. split; [| assumption]. apply elem_of_app. right. left.
      * exfalso. apply Hlen. rewrite find_if_None in Hfind.
        assert (Hall : length (List.filter p (_spaces m)) = length (_spaces m)).
        { apply Heq. intros x Hx. unfold p. now rewrite (Hfind x Hx). }
        lia.
    + intros (x & Hin & Hx) Hlen.
      assert (Hall : length (List.filter p (_spaces m)) = length (_spaces m)) by lia.
      rewrite Heq in Hall. specialize (Hall x Hin). unfold p in Hall.
      rewrite Hx in Hall. discriminate.
  - intros x. rewrite elem_of_filter_bool, negb_true_iff. reflexivity.
Qed.

Lemma types_unique_filter (p : AnySpace -> bool) (l : list AnySpace) :
  NoDup (getType <$> l) -> NoDup (getType <$> List.filter p l).
Proof.
  induction l as [|x l IH]; cbn; [trivial |].
  intros Hnodup. apply NoDup_cons in Hnodup as [Hnotin Hnodup].
  destruct (p x); cbn; [| auto].
  apply NoDup_cons. split; [| auto].
  intros Hin. apply Hnotin.
  apply list_elem_of_fmap in Hin as (y & Hy & Hin).
  apply elem_of_filter_bool in Hin as [Hin _].
  apply list_elem_of_fmap. eauto.
Qed.

(** X9: the registry never holds two spaces of one type: an accepted
    [addSpace] and any [removeSpace] keep the types distinct. *)
Theorem types_stay_unique m s :
  types_unique m ->
  (forall m' added, addSpace m s = inr (m', added) -> types_unique m') /\
  types_unique (removeSpace same_instance m s).2.
Proof.
  unfold types_unique. intros Hunique. split.
  - intros m' added Hadd. unfold addSpace in Hadd.
    destruct (find_type m (getType s)) eqn:Hfind; [discriminate |].
    injection Hadd as <- _. cbn [_spaces].
    rewrite fmap_app. apply NoDup_app. split; [assumption |]. split.
    + intros t Ht Hs. cbn in Hs. apply list_elem_of_singleton in Hs. subst t.
      apply list_elem_of_fmap in Ht as (x & Hx & Hin).
      unfold find_type in Hfind. rewrite find_if_None in Hfind.
      specialize (Hfind x Hin). apply bool_decide_eq_false in Hfind. congruence.
    + cbn. apply NoDup_singleton.
  - cbn. now apply types_unique_filter.
Qed.


Lemma unique_type_member (l : list AnySpace) (x y : AnySpace) :
  NoDup (getType <$> l) -> x ∈ l -> y ∈ l -> getType x = getType y -> x = y.
Proof.
  induction l as [|z l IH]; cbn; intros Hnodup Hx Hy Hty; [inversion Hx |].
  apply NoDup_cons in Hnodup as [Hnotin Hnodup].
  apply elem_of_cons in Hx as [-> | Hx]; apply elem_of_cons in Hy as [-> | Hy].
  - reflexivity.
  - exfalso. apply Hnotin. apply list_elem_of_fmap. eauto.
  - exfalso. apply Hnotin. apply list_elem_of_fmap. exists x. split; [congruence | assumption].
  - now apply IH.
Qed.

(** X10: a lookup by type answers with the one registered space of that type,
    and with null exactly when no registered space has it. *)
Theorem find_type_spec m (type : SpaceType) :
  types_unique m ->
  match find_type m type with
  | Some x =>
      x ∈ _spaces m /\ getType x = type /\
      forall y, y ∈ _spaces m -> getType y = type -> y = x
  | None => forall y, y ∈ _spaces m -> getType y <> type
  end.
Proof.
  unfold types_unique. intros Hunique.
  destruct (find_type m type) as [x|] eqn:Hfind; unfold find_type in Hfind.
  - apply find_if_Some in Hfind as (before & after & Heq & Hx & _).
    apply bool_decide_eq_true in Hx.
    assert (Hin : x ∈ _spaces m).
    { rewrite Heq. apply elem_of_app. right. left. }
    split; [assumption |]. split; [assumption |].
    intros y Hy Hty. apply (unique_type_member (_spaces m)); try assumption. congruence.
  - rewrite find_if_None in Hfind. intros y Hy.
    specialize (Hfind y Hy). now apply bool_decide_eq_false in Hfind.
Qed.

(** X11: removing the registered space of a type frees the type: a space of
    that type can be added again. *)
Theorem remove_then_add m s s' :
  types_unique m ->
  s ∈ _spaces m ->
  same_instance s s = true ->
  getType s' = getType s ->
  addSpace (removeSpace same_instance m s).2 s'
  = inr ({| _spaces := _spaces (removeSpace same_instance m s).2 ++ [s'] |}, s').
Proof.
  intros Hunique Hin Hrefl Hty.
  apply addSpace_fresh. apply find_if_None. intros x Hx.
  apply bool_decide_eq_false. intros Hxty.
  unfold removeSpace in Hx. cbn in Hx.
  apply elem_of_filter_bool in Hx as [Hxin Hxs].
  assert (x = s) by (apply (unique_type_member (_spaces m)); try assumption; congruence).
  subst x. rewrite Hrefl in Hxs. discriminate.
Qed.

Lemma filter_all {A} (p : A -> bool) (l : list A) :
  (forall x, x ∈ l -> p x = true) -> List.filter p l = l.
Proof.
  induction l as [|x l IH]; cbn; [reflexivity |].
  intros Hall. rewrite (Hall x) by left. f_equal. apply IH.
  intros y Hy. apply Hall. now right.
Qed.

(** X12: removing the instance that was just added gives back the registry
    as it was. *)
Theorem add_then_remove m s m' added :
  addSpace m s = inr (m', added) ->
  same_instance s s = true ->
  (forall x, x ∈ _spaces m -> same_instance x s = false) ->
  removeSpace same_instance m' s = (true, m).
Proof.
  intros Hadd Hrefl Hnew. unfold addSpace in Hadd.
  destruct (find_type m (getType s)); [discriminate |].
  injection Hadd as <- _. unfold removeSpace. cbn [_spaces].
  rewrite List.filter_app. cbn [List.filter]. rewrite Hrefl. cbn [negb].
  rewrite app_nil_r, filter_all.
  - rewrite length_app. cbn [length].
    replace (length (_spaces m) + 1 - length (_spaces m))%nat with 1%nat by lia.
    destruct m. reflexivity.
  - intros x Hx. now rewrite (Hnew x Hx).
Qed.

End RegistryMoreFacts.

(** * Further properties of Lab *)

Section LabMore.
Variable d65 : nat -> R.

(** X14: the conversions work on the first three channels only: the length
    of the vector and every channel after the third (the opacity) are kept. *)
Theorem lab_keeps_opacity (v : list R) :
  (3 <= length v)%nat ->
  length (toXYZ d65 v) = length v /\ drop 3 (toXYZ d65 v) = drop 3 v /\
  length (fromXYZ d65 v) = length v /\ drop 3 (fromXYZ d65 v) = drop 3 v.
Proof.
  intros Hlen. destruct v as [|a [|b [|c tl]]]; cbn in Hlen; try lia.
  rewrite toXYZ_cons, fromXYZ_cons. cbv zeta. repeat split.
Qed.

Lemma lab_f_inv_unit (y : R) : 16 / 116 <= y <= 1 -> 0 <= lab_f_inv y <= 1.
Proof.
  intros Hy. unfold lab_f_inv. destruct (Rlt_dec 0.008856 (y ^ 3)).
  - split; [lra |]. assert (y * y <= 1) by nra. nra.
  - lra.
Qed.

(** X15: luminance depends on lightness alone and stays between black and
    white: the second channel of [toXYZ] is the white point's scaled by a
    factor between 0 and 1, which is 0 at lightness 0 and 1 at lightness 1. *)
Theorem toXYZ_luminance (a b c : R) (tl : list R) :
  0 <= a <= 1 ->
  let k := lab_f_inv ((100 * a + 16) / 116) in
  vget (toXYZ d65 (a :: b :: c :: tl)) 1 = k * d65 1%nat /\
  0 <= k <= 1 /\ (a = 0 -> k = 0) /\ (a = 1 -> k = 1).
Proof.
  intros Ha k. rewrite toXYZ_cons. cbv zeta. unfold vget. cbn [nth].
  assert (Hk : lab_f_inv ((SCALE_UP a 0 LUMA_SCALE + 16.0) / 116.0) = k).
  { unfold k, SCALE_UP, LUMA_SCALE. f_equal. lra. }
  rewrite Hk. split; [reflexivity |]. split.
  - apply lab_f_inv_unit. lra.
  - unfold k, lab_f_inv. split; intros ->.
    + destruct (Rlt_dec _ _); lra.
    + destruct (Rlt_dec _ _); lra.
Qed.

(** X16: greys stay grey.  A colour with both chroma channels in the middle
    is sent to one and the same factor times each entry of the white point;
    and a colour whose three channels are the same fraction of the white
    point comes back with both chroma channels exactly in the middle. *)
Theorem neutral_axis (a x y z : R) (tl : list R) :
  x / d65 0%nat = y / d65 1%nat ->
  y / d65 1%nat = z / d65 2%nat ->
  (exists k,
     toXYZ d65 (a :: 0.5 :: 0.5 :: tl)
     = k * d65 0%nat :: k * d65 1%nat :: k * d65 2%nat :: tl) /\
  vget (fromXYZ d65 (x :: y :: z :: tl)) 1 = 0.5 /\
  vget (fromXYZ d65 (x :: y :: z :: tl)) 2 = 0.5.
Proof.
  intros Hxy Hyz. split.
  - exists (lab_f_inv ((SCALE_UP a 0 LUMA_SCALE + 16.0) / 116.0)).
    rewrite toXYZ_cons. cbv zeta.
    replace (SCALE_UP 0.5 MIN_SCALE MAX_SCALE) with 0
      by (unfold SCALE_UP, MIN_SCALE, MAX_SCALE; lra).
    f_equal; [f_equal; f_equal; lra | f_equal; f_equal; f_equal; f_equal; lra].
  - rewrite fromXYZ_cons. cbv zeta. unfold vget. cbn [nth].
    rewrite Hxy, <- Hyz.
    unfold SCALE_DOWN, MIN_SCALE, MAX_SCALE. split; lra.
Qed.

End LabMore.

(** * Further properties of the Lab CSS text *)

Section LabCssMore.

(** One call of [append_css_value] appends one value or nothing. *)
Lemma append_css_value_appends ss output end_ sep scale ok ss' output' end' :
  append_css_value ss output end_ sep scale = (ok, ss', output', end') ->
  if ok then exists x, output' = output ++ [x] else output' = output.
Proof.
  unfold append_css_value. destruct end_; [intros [= <- _ <- _]; reflexivity |].
  destruct ss as [|[value unit|c|] rest]; try (intros [= <- _ <- _]; reflexivity).
  destruct (String.eqb unit "%"); [intros [= <- _ <- _]; eauto |].
  destruct (String.eqb unit ""); intros [= <- _ <- _]; eauto.
Qed.

(** X17: [parse] succeeds with three or four values only, and when it fails
    it has done no more than append to [output]. *)
Theorem parse_appends (ss : list CssToken) (output : list R) :
  let r := parse ss output in
  if r.1
  then length r.2 = (length output + 3)%nat \/ length r.2 = (length output + 4)%nat
  else output `prefix_of` r.2.
Proof.
  cbv zeta. unfold parse.
  destruct (append_css_value ss output false "," LUMA_SCALE)
    as [[[ok1 ss1] out1] end1] eqn:H1.
  apply append_css_value_appends in H1.
  destruct ok1; cbn [negb]; [| subst out1; cbn; reflexivity].
  destruct H1 as [x1 ->].
  destruct (append_css_value ss1 _ end1 "," MAX_CSS_SCALE)
    as [[[ok2 ss2] out2] end2] eqn:H2.
  apply append_css_value_appends in H2.
  destruct ok2; cbn [negb]; [| subst out2; cbn; now apply prefix_app_r].
  destruct H2 as [x2 ->].
  destruct (append_css_value ss2 _ end2 "/" MAX_CSS_SCALE)
    as [[[ok3 ss3] out3] end3] eqn:H3.
  apply append_css_value_appends in H3.
  destruct ok3; cbn [negb];
    [| subst out3; cbn; rewrite <- app_assoc; now apply prefix_app_r].
  destruct H3 as [x3 ->].
  destruct (append_css_value ss3 _ end3 "000" 1)
    as [[[ok4 ss4] out4] end4] eqn:H4.
  apply append_css_value_appends in H4.
  destruct ok4.
  - destruct H4 as [x4 ->]. destruct end4; cbn.
    + right. unfold vset. rewrite !length_insert, !length_app. cbn. lia.
    + rewrite <- !app_assoc. now apply prefix_app_r.
  - subst out4. destruct end4; cbn.
    + left. unfold vset. rewrite !length_insert, !length_app. cbn. lia.
    + rewrite <- !app_assoc. now apply prefix_app_r.
Qed.

End LabCssMore.

(** * Properties of SpinButton *)

Section MapFacts.

Lemma emplace_keys (entry : R * string) (values : NumericMenuData) (key : R) :
  key ∈ (emplace entry values).*1 <-> key = entry.1 \/ key ∈ values.*1.
Proof.
  induction values as [|first rest IH]; cbn.
  - rewrite list_elem_of_singleton. split; [auto |].
    intros [H | H]; [assumption | inversion H].
  - destruct (Rlt_dec entry.1 first.1); [| destruct (Rlt_dec first.1 entry.1)]; cbn.
    + rewrite !elem_of_cons. tauto.
    + rewrite !elem_of_cons, IH. tauto.
    + assert (entry.1 = first.1) by lra.
      rewrite !elem_of_cons. intuition congruence.
Qed.

Lemma emplace_entries (entry x : R * string) (values : NumericMenuData) :
  x ∈ emplace entry values -> x = entry \/ x ∈ values.
Proof.
  induction values as [|first rest IH]; cbn.
  - rewrite list_elem_of_singleton. auto.
  - destruct (Rlt_dec entry.1 first.1); [| destruct (Rlt_dec first.1 entry.1)].
    + rewrite !elem_of_cons. tauto.
    + rewrite !elem_of_cons. intros [-> | Hx]; [auto |].
      destruct (IH Hx); auto.
    + auto.
Qed.

Lemma emplace_keeps (entry x : R * string) (values : NumericMenuData) :
  x ∈ values -> x ∈ emplace entry values.
Proof.
  induction values as [|first rest IH]; cbn; [intros H; inversion H |].
  destruct (Rlt_dec entry.1 first.1); [| destruct (Rlt_dec first.1 entry.1)].
  - intros Hx. now right.
  - rewrite !elem_of_cons. intros [-> | Hx]; auto.
  - trivial.
Qed.

Lemma emplace_new (entry : R * string) (values : NumericMenuData) :
  entry.1 ∉ values.*1 -> entry ∈ emplace entry values.
Proof.
  induction values as [|first rest IH]; cbn; intros Hnew.
  - left.
  - destruct (Rlt_dec entry.1 first.1); [| destruct (Rlt_dec first.1 entry.1)].
    + left.
    + right. apply IH. intros Hin. apply Hnew. now right.
    + exfalso. apply Hnew. assert (entry.1 = first.1) as -> by lra. left.
Qed.

Lemma emplace_ascending (entry : R * string) (values : NumericMenuData) :
  ascending values.*1 -> ascending (emplace entry values).*1.
Proof.
  induction values as [|first rest IH]; cbn.
  - intros _. split; [constructor | exact I].
  - intros [Hfirst Hrest].
    destruct (Rlt_dec entry.1 first.1) as [Hlt|Hge];
      [| destruct (Rlt_dec first.1 entry.1) as [Hgt|Heq]]; cbn.
    + split; [| split; assumption].
      constructor; [assumption |].
      eapply Forall_impl; [exact Hfirst |]. cbn. intros k Hk. lra.
    + split; [| auto].
      apply Forall_forall. intros k Hk.
      apply emplace_keys in Hk as [-> | Hk]; [assumption |].
      rewrite Forall_forall in Hfirst. auto.
    + split; assumption.
Qed.

Lemma ascending_NoDup (keys : list R) : ascending keys -> NoDup keys.
Proof.
  induction keys as [|key rest IH]; cbn; [constructor |].
  intros [Hkey Hrest]. constructor; [| auto].
  intros Hin. rewrite Forall_forall in Hkey. specialize (Hkey key Hin). lra.
Qed.

End MapFacts.

Section MenuFacts.
Context `{toolkit : WidgetToolkit}.
Implicit Types (self : SpinButton) (values : NumericMenuData).

(** The loop over the custom entries, from any starting map. *)
Lemma custom_loop_ascending (lower upper : R) (custom init : NumericMenuData) :
  ascending init.*1 ->
  ascending
    (fold_left
       (fun values (custom_data : R * string) =>
          if Rge_dec custom_data.1 lower then
            if Rle_dec custom_data.1 upper then emplace custom_data values
            else values
          else values) custom init).*1.
Proof.
  revert init. induction custom as [|entry custom IH]; cbn; [trivial |].
  intros init Hinit. apply IH.
  destruct (Rge_dec entry.1 lower); [| assumption].
  destruct (Rle_dec entry.1 upper); [| assumption].
  now apply emplace_ascending.
Qed.

Lemma custom_loop_keys (lower upper : R) (custom init : NumericMenuData) (key : R) :
  key ∈ (fold_left
       (fun values (custom_data : R * string) =>
          if Rge_dec custom_data.1 lower then
            if Rle_dec custom_data.1 upper then emplace custom_data values
            else values
          else values) custom init).*1 ->
  key ∈ init.*1 \/ (key ∈ custom.*1 /\ lower <= key <= upper).
Proof.
  revert init. induction custom as [|entry custom IH]; cbn; [auto |].
  intros init Hkey. apply IH in Hkey as [Hkey | [Hkey Hrange]].
  - destruct (Rge_dec entry.1 lower); [| auto].
    destruct (Rle_dec entry.1 upper); [| auto].
    apply emplace_keys in Hkey as [-> | Hkey]; [| auto].
    right. split; [left | lra].
  - right. split; [now right | assumption].
Qed.

Lemma custom_loop_keeps (lower upper : R) (custom init : NumericMenuData)
    (x : R * string) :
  x ∈ init ->
  x ∈ fold_left
       (fun values (custom_data : R * string) =>
          if Rge_dec custom_data.1 lower then
            if Rle_dec custom_data.1 upper then emplace custom_data values
            else values
          else values) custom init.
Proof.
  revert init. induction custom as [|entry custom IH]; cbn; [trivial |].
  intros init Hx. apply IH.
  destruct (Rge_dec entry.1 lower); [| assumption].
  destruct (Rle_dec entry.1 upper); [| assumption].
  now apply emplace_keeps.
Qed.

Lemma custom_loop_takes (lower upper : R) (custom init : NumericMenuData)
    (x : R * string) :
  NoDup custom.*1 -> x ∈ custom -> lower <= x.1 <= upper -> x.1 ∉ init.*1 ->
  x ∈ fold_left
       (fun values (custom_data : R * string) =>
          if Rge_dec custom_data.1 lower then
            if Rle_dec custom_data.1 upper then emplace custom_data values
            else values
          else values) custom init.
Proof.
  revert init. induction custom as [|entry custom IH]; cbn;
    intros init Hnodup Hx Hrange Hnew; [inversion Hx |].
  apply NoDup_cons in Hnodup as [Hentry Hnodup].
  apply elem_of_cons in Hx as [<- | Hx].
  - apply custom_loop_keeps.
    destruct (Rge_dec x.1 lower); [| lra].
    destruct (Rle_dec x.1 upper); [| lra].
    now apply emplace_new.
  - apply IH; try assumption.
    assert (Hne : x.1 <> entry.1).
    { intros Heq. apply Hentry. rewrite <- Heq.
      apply list_elem_of_fmap. eauto. }
    destruct (Rge_dec entry.1 lower); [| assumption].
    destruct (Rle_dec entry.1 upper); [| assumption].
    rewrite emplace_keys. intros [? | ?]; [contradiction | contradiction].
Qed.

Lemma menu_values_ascending self : ascending (menu_values self).*1.
Proof.
  unfold menu_values. cbv zeta.
  do 3 apply emplace_ascending. now apply custom_loop_ascending.
Qed.

Lemma menu_values_current self : get_value self ∈ (menu_values self).*1.
Proof.
  unfold menu_values. cbv zeta.
  rewrite !emplace_keys. auto.
Qed.

Lemma menu_values_keys self (key : R) :
  key ∈ (menu_values self).*1 ->
  key = get_value self \/
  key = Rmin (get_value self + get_page_increment self) (get_upper self) \/
  key = Rmax (get_value self - get_page_increment self) (get_lower self) \/
  (key ∈ (_custom_menu_data self).*1 /\ get_lower self <= key <= get_upper self).
Proof.
  unfold menu_values. cbv zeta. rewrite !emplace_keys.
  intros [Hk | [Hk | [Hk | Hk]]]; auto.
  apply custom_loop_keys in Hk as [Hk | Hk]; [inversion Hk | auto].
Qed.

Lemma menu_item_values self :
  item_value <$> create_popover_menu self = (menu_values self).*1.
Proof.
  unfold create_popover_menu. rewrite <- list_fmap_compose.
  apply list_fmap_ext. intros i x _. reflexivity.
Qed.

(** X19: the menu lists its values in ascending order and none twice. *)
Theorem menu_ascending self :
  ascending (item_value <$> create_popover_menu self) /\
  NoDup (item_value <$> create_popover_menu self).
Proof.
  rewrite menu_item_values.
  split; [| apply ascending_NoDup]; apply menu_values_ascending.
Qed.

(** X20: exactly one item of the menu is active, the one for the current
    value, which the menu always offers. *)
Theorem menu_one_active self :
  exists before current after,
    create_popover_menu self = before ++ current :: after /\
    item_value current = get_value self /\
    item_active current = true /\
    forall item, item ∈ before ++ after -> item_active item = false.
Proof.
  pose proof (menu_values_current self) as Hin.
  pose proof (ascending_NoDup _ (menu_values_ascending self)) as Hnodup.
  apply list_elem_of_fmap in Hin as ([key label] & Hkey & Hin). cbn in Hkey.
  apply list_elem_of_split in Hin as (before & after & Hsplit).
  unfold create_popover_menu. rewrite Hsplit in *.
  rewrite fmap_app, fmap_cons. do 3 eexists. split; [reflexivity |]. cbn.
  split; [congruence |]. split.
  - destruct (Req_dec_T (get_value self) key); [reflexivity | congruence].
  - rewrite fmap_app, fmap_cons in Hnodup. cbn in Hnodup.
    apply NoDup_app in Hnodup as (_ & Hbefore & Hafter).
    apply NoDup_cons in Hafter as [Hafter _].
    intros item Hitem. rewrite <- fmap_app in Hitem.
    apply list_elem_of_fmap in Hitem as ([k l] & -> & Hitem). cbn.
    destruct (Req_dec_T (get_value self) k) as [Heq|]; [exfalso | reflexivity].
    apply elem_of_app in Hitem as [Hitem | Hitem].
    + apply (Hbefore key); [| left].
      rewrite <- Hkey, Heq. apply list_elem_of_fmap. exists (k, l). auto.
    + apply Hafter. rewrite <- Hkey, Heq.
      apply list_elem_of_fmap. exists (k, l). auto.
Qed.

(** X21: when the current value lies within the bounds of the adjustment and
    the page increment is not negative, every value of the menu lies within
    the bounds: custom values outside them are left out, and the page steps
    are cut off at the bounds. *)
Theorem menu_within_bounds self :
  get_lower self <= get_value self <= get_upper self ->
  0 <= get_page_increment self ->
  forall item, item ∈ create_popover_menu self ->
    get_lower self <= item_value item <= get_upper self.
Proof.
  intros Hvalue Hpage item Hitem.
  assert (Hkey : item_value item ∈ (menu_values self).*1).
  { rewrite <- menu_item_values. apply list_elem_of_fmap. eauto. }
  apply menu_values_keys in Hkey as [-> | [-> | [-> | [_ Hrange]]]].
  - assumption.
  - unfold Rmin. destruct (Rle_dec _ _); lra.
  - unfold Rmax. destruct (Rle_dec _ _); lra.
  - assumption.
Qed.

(** X22: a custom entry within the bounds is always in the menu with its own
    label, also when its value is the current value or a page step. *)
Theorem menu_keeps_custom_label self (value : R) (label : string) :
  NoDup (_custom_menu_data self).*1 ->
  (value, label) ∈ _custom_menu_data self ->
  get_lower self <= value <= get_upper self ->
  exists item,
    item ∈ create_popover_menu self /\
    item_value item = value /\
    item_label item =
      (if negb (String.eqb label "") then ustring_compose value label
       else format_classic value).
Proof.
  intros Hnodup Hin Hrange.
  assert (Hvalues : (value, label) ∈ menu_values self).
  { unfold menu_values. cbv zeta. do 3 apply emplace_keeps.
    apply custom_loop_takes; try assumption.
    cbn. intros H. inversion H. }
  eexists. split.
  - unfold create_popover_menu. apply list_elem_of_fmap. eexists.
    split; [reflexivity | exact Hvalues].
  - split; reflexivity.
Qed.

End MenuFacts.

Section SpinButtonFacts.
Context `{toolkit : WidgetToolkit}.
Implicit Types (self : SpinButton).

(** X23: [on_input] writes [newvalue] only when it returns true.  It returns
    true exactly when evaluation is enabled, the text evaluates, and, if a
    unit is linked, the dimension of the result is 1 for an absolute unit
    and 0 for a relative one; without a linked unit any dimension passes. *)
Theorem on_input_spec self (newvalue : R) :
  ((on_input self newvalue).1 = false -> (on_input self newvalue).2 = newvalue) /\
  forall value,
    on_input self newvalue = (true, value) <->
    _dont_evaluate self = false /\
    exists dimension,
      evaluate (get_text self) (linked_unit self) = Some (value, dimension) /\
      match linked_unit self with
      | Some u => dimension = (if isAbsolute u then 1 else 0)%Z
      | None => True
      end.
Proof.
  unfold on_input. fold (linked_unit self).
  destruct (_dont_evaluate self).
  { split; [reflexivity |]. intros value. split; [discriminate |].
    intros [[=] _]. }
  destruct (linked_unit self) as [u|].
  - destruct (evaluate (get_text self) (Some u)) as [[v d]|].
    + destruct (d =? (if isAbsolute u then 1 else 0))%Z eqn:Hd; cbn [negb].
      * apply Z.eqb_eq in Hd. split; [discriminate |]. intros value. split.
        -- intros [= <-]. split; [reflexivity |]. exists d. auto.
        -- intros (_ & d' & [= <- <-] & _). reflexivity.
      * apply Z.eqb_neq in Hd. split; [reflexivity |]. intros value.
        split; [discriminate |]. intros (_ & d' & [= <- <-] & Hd'). contradiction.
    + split; [reflexivity |]. intros value. split; [discriminate |].
      intros (_ & d' & [=] & _).
  - destruct (evaluate (get_text self) None) as [[v d]|].
    + split; [discriminate |]. intros value. split.
      * intros [= <-]. split; [reflexivity |]. exists d. auto.
      * intros (_ & d' & [= <- <-] & _). reflexivity.
    + split; [reflexivity |]. intros value. split; [discriminate |].
      intros (_ & d' & [=] & _).
Qed.

(** X24: a key press that changes the value is always consumed: whenever
    [on_key_pressed] calls [set_value] it returns true, so the default
    handler never sees that key. *)
Theorem value_set_only_when_consumed self (key : LatinKey) (state : ModifierType)
    (value : R) :
  set_value value ∈ (on_key_pressed self key state).2 ->
  (on_key_pressed self key state).1 = true.
Proof.
  unfold on_key_pressed, undo, defocus.
  destruct (Rlt_dec 0 (_increment self)), (has_flag state modifiers),
    (has_flag state CONTROL_MASK), (_defocus_target self),
    (scrollable_ancestor self), key; cbn; intros Hin; try reflexivity;
    repeat (apply elem_of_cons in Hin as [Hin | Hin]; [discriminate |]);
    inversion Hin.
Qed.

(** X25: a key press sets the value only in two ways: back to the value
    saved when the focus came in, or one increment up or down from the
    current value, the latter only with a positive increment and none of the
    six modifiers held. *)
Theorem key_press_sets_only self (key : LatinKey) (state : ModifierType)
    (value : R) :
  set_value value ∈ (on_key_pressed self key state).2 ->
  value = _on_focus_in_value self \/
  (0 < _increment self /\ has_flag state modifiers = false /\
   (value = get_value self + _increment self \/
    value = get_value self - _increment self)).
Proof.
  unfold on_key_pressed, undo, defocus.
  destruct (Rlt_dec 0 (_increment self)) as [Hinc|Hinc],
    (has_flag state modifiers), (has_flag state CONTROL_MASK),
    (_defocus_target self), (scrollable_ancestor self), key; cbn; intros Hin;
    repeat (apply elem_of_cons in Hin as [Hin | Hin];
            [first [discriminate | injection Hin as ->; auto 6] |]);
    inversion Hin.
Qed.

End SpinButtonFacts.

(** * Worked instances of the further properties *)

Section MoreInstances.
Local Open Scope R_scope.

(** X1 after one conversion from [rgb] to [display]. *)
Lemma caches_only_grow_witness :
  calls_since rgb no_caches (profileToProfile rgb display [1; 0; 0] no_caches).2 /\
  _transforms no_caches ⊆ _transforms (profileToProfile rgb display [1; 0; 0] no_caches).2 /\
  _gamut_checkers no_caches
    ⊆ _gamut_checkers (profileToProfile rgb display [1; 0; 0] no_caches).2 /\
  factory_calls no_caches
    `prefix_of` factory_calls (profileToProfile rgb display [1; 0; 0] no_caches).2.
Proof.
  assert (Hsince :
    calls_since rgb no_caches (profileToProfile rgb display [1; 0; 0] no_caches).2)
    by (apply since_profileToProfile, since_now).
  split; [exact Hsince |].
  exact (caches_only_grow rgb no_caches _ Hsince).
Defined.

(** X2 at a second conversion from [rgb] to [display]. *)
Lemma transform_built_once_witness :
  profile_eq (getProfile display) (getProfile rgb) = false /\
  calls_since rgb (profileToProfile rgb display [1; 0; 0] no_caches).2
    (profileToProfile rgb display [1; 0; 0] no_caches).2 /\
  transform_key rgb display = transform_key rgb display /\
  profileToProfile rgb display [0; 1; 0]
    (profileToProfile rgb display [1; 0; 0] no_caches).2
  = (applyTransform (resolved_transform rgb display no_caches) [0; 1; 0],
     (profileToProfile rgb display [1; 0; 0] no_caches).2).
Proof.
  split; [reflexivity |]. split; [apply since_now |]. split; [reflexivity |].
  exact (transform_built_once rgb display [1; 0; 0] no_caches _ display [0; 1; 0]
           eq_refl (since_now _ _) eq_refl eq_refl).
Defined.

(** X3 from the empty ledger. *)
Lemma factory_intent_known_witness :
  calls_since rgb no_caches (profileToProfile rgb display [1; 0; 0] no_caches).2 /\
  Forall known_intent (factory_calls no_caches) /\
  Forall known_intent
    (factory_calls (profileToProfile rgb display [1; 0; 0] no_caches).2).
Proof.
  assert (Hsince :
    calls_since rgb no_caches (profileToProfile rgb display [1; 0; 0] no_caches).2)
    by (apply since_profileToProfile, since_now).
  assert (Hempty : Forall known_intent (factory_calls no_caches)) by constructor.
  split; [exact Hsince |]. split; [exact Hempty |].
  exact (factory_intent_known rgb no_caches _ Hsince Hempty).
Defined.

(** X4 from [rgb] to [display], whose transform can be built. *)
Lemma convert_pipeline_witness :
  profile_eq (getProfile display) (getProfile rgb) = false /\
  resolved_transform rgb display no_caches = Some (fun io => (true, io)) /\
  convert rgb display [1; 0; 0] no_caches =
    (true, profileToSpace display [1; 0; 0],
     (profileToProfile rgb display (spaceToProfile rgb [1; 0; 0]) no_caches).2).
Proof.
  split; [reflexivity |]. split; [reflexivity |].
  exact (convert_pipeline rgb display [1; 0; 0] no_caches (fun io => (true, io))
           eq_refl eq_refl).
Defined.

(** X5 at a second gamut query from [rgb] to [display]. *)
Lemma gamut_checker_built_once_witness :
  profile_eq (getProfile display) (getProfile rgb) = false /\
  calls_since rgb (outOfGamut rgb display [1; 0; 0] no_caches).2
    (outOfGamut rgb display [1; 0; 0] no_caches).2 /\
  getId (getProfile display) = getId (getProfile display) /\
  exists checker,
    _gamut_checkers (outOfGamut rgb display [1; 0; 0] no_caches).2
      !! getId (getProfile display) = Some checker /\
    outOfGamut rgb display [0; 1; 0] (outOfGamut rgb display [1; 0; 0] no_caches).2
    = (match checker with
       | Some c => Some (check_gamut c [0; 1; 0])
       | None => None
       end, (outOfGamut rgb display [1; 0; 0] no_caches).2).
Proof.
  split; [reflexivity |]. split; [apply since_now |]. split; [reflexivity |].
  exact (gamut_checker_built_once rgb display [1; 0; 0] no_caches _ display [0; 1; 0]
           eq_refl (since_now _ _) eq_refl eq_refl).
Defined.

(** X6 with a library that builds no checker. *)
Lemma outOfGamut_null_checker_witness :
  @profile_eq cms_without_checkers
    (getProfile (unchecked_space 1)) (getProfile (unchecked_space 0)) = false /\
  _gamut_checkers no_caches_unchecked !! getId (getProfile (unchecked_space 1)) = None /\
  @create_for_cms_checker cms_without_checkers
    (getProfile (unchecked_space 0)) (getProfile (unchecked_space 1)) = None /\
  (outOfGamut (unchecked_space 0) (unchecked_space 1) [1; 0; 0] no_caches_unchecked).1
    = None /\
  _gamut_checkers
    (outOfGamut (unchecked_space 0) (unchecked_space 1) [1; 0; 0] no_caches_unchecked).2
    !! getId (getProfile (unchecked_space 1)) = Some None.
Proof.
  split; [reflexivity |]. split; [reflexivity |]. split; [reflexivity |].
  exact (@outOfGamut_null_checker cms_without_checkers
           (unchecked_space 0) (unchecked_space 1) [1; 0; 0] no_caches_unchecked
           eq_refl eq_refl eq_refl).
Defined.

Lemma two_types_unique : types_unique {| _spaces := [rgb; display] |}.
Proof.
  unfold types_unique. cbn. apply NoDup_cons. split; [| apply NoDup_singleton].
  intros Hin. apply list_elem_of_singleton in Hin. discriminate.
Defined.

(** X9 at a registry of two spaces and a third space of another type. *)
Lemma types_stay_unique_witness :
  types_unique {| _spaces := [rgb; display] |} /\
  (forall m' added,
     addSpace {| _spaces := [rgb; display] |} cmyk_over_srgb = inr (m', added) ->
     types_unique m') /\
  types_unique
    (removeSpace same_type_and_name {| _spaces := [rgb; display] |} cmyk_over_srgb).2.
Proof.
  split; [exact two_types_unique |].
  exact (types_stay_unique same_type_and_name {| _spaces := [rgb; display] |}
           cmyk_over_srgb two_types_unique).
Defined.

(** X10 at a registered and at an unregistered type. *)
Lemma find_type_spec_witness :
  types_unique {| _spaces := [rgb; display] |} /\
  match find_type {| _spaces := [rgb; display] |} T_CMS with
  | Some x =>
      x ∈ [rgb; display] /\ getType x = T_CMS /\
      forall y, y ∈ [rgb; display] -> getType y = T_CMS -> y = x
  | None => forall y, y ∈ [rgb; display] -> getType y <> T_CMS
  end.
Proof.
  split; [exact two_types_unique |].
  exact (find_type_spec {| _spaces := [rgb; display] |} T_CMS two_types_unique).
Defined.

(** X11: [rgb] is removed and a space of its type is added again. *)
Lemma remove_then_add_witness :
  types_unique {| _spaces := [rgb; display] |} /\
  rgb ∈ _spaces {| _spaces := [rgb; display] |} /\
  same_type_and_name rgb rgb = true /\
  getType rgb = getType rgb /\
  addSpace (removeSpace same_type_and_name {| _spaces := [rgb; display] |} rgb).2 rgb
  = inr ({| _spaces :=
              _spaces (removeSpace same_type_and_name
                         {| _spaces := [rgb; display] |} rgb).2 ++ [rgb] |}, rgb).
Proof.
  assert (Hin : rgb ∈ _spaces {| _spaces := [rgb; display] |}) by left.
  split; [exact two_types_unique |]. split; [exact Hin |].
  split; [reflexivity |]. split; [reflexivity |].
  exact (remove_then_add same_type_and_name {| _spaces := [rgb; display] |} rgb rgb
           two_types_unique Hin eq_refl eq_refl).
Defined.

(** X12: [display] is added to a registry holding [rgb] and removed again. *)
Lemma add_then_remove_witness :
  addSpace {| _spaces := [rgb] |} display
    = inr ({| _spaces := [rgb; display] |}, display) /\
  same_type_and_name display display = true /\
  (forall x, x ∈ _spaces {| _spaces := [rgb] |} -> same_type_and_name x display = false) /\
  removeSpace same_type_and_name {| _spaces := [rgb; display] |} display
  = (true, {| _spaces := [rgb] |}).
Proof.
  assert (Hnew : forall x, x ∈ _spaces {| _spaces := [rgb] |} ->
                           same_type_and_name x display = false).
  { intros x Hx. apply list_elem_of_singleton in Hx. subst x. reflexivity. }
  split; [reflexivity |]. split; [reflexivity |]. split; [exact Hnew |].
  exact (add_then_remove same_type_and_name {| _spaces := [rgb] |} display
           {| _spaces := [rgb; display] |} display eq_refl eq_refl Hnew).
Defined.

(** X14 at mid grey with an opacity. *)
Lemma lab_keeps_opacity_witness :
  (3 <= length [0.5; 0.5; 0.5; 1]%R)%nat /\
  length (toXYZ d65_white [0.5; 0.5; 0.5; 1]) = length [0.5; 0.5; 0.5; 1] /\
  drop 3 (toXYZ d65_white [0.5; 0.5; 0.5; 1]) = drop 3 [0.5; 0.5; 0.5; 1] /\
  length (fromXYZ d65_white [0.5; 0.5; 0.5; 1]) = length [0.5; 0.5; 0.5; 1] /\
  drop 3 (fromXYZ d65_white [0.5; 0.5; 0.5; 1]) = drop 3 [0.5; 0.5; 0.5; 1].
Proof.
  assert (Hlen : (3 <= length [0.5; 0.5; 0.5; 1]%R)%nat) by (cbn; lia).
  split; [exact Hlen |].
  exact (lab_keeps_opacity d65_white [0.5; 0.5; 0.5; 1] Hlen).
Defined.

(** X15 at lightness one half. *)
Lemma toXYZ_luminance_witness :
  0 <= 0.5 <= 1 /\
  vget (toXYZ d65_white [0.5; 0.2; 0.9]) 1
  = lab_f_inv ((100 * 0.5 + 16) / 116) * d65_white 1%nat.
Proof.
  assert (Hrange : 0 <= 0.5 <= 1) by lra.
  split; [exact Hrange |].
  exact (proj1 (toXYZ_luminance d65_white 0.5 0.2 0.9 [] Hrange)).
Defined.

(** X16 at three tenths of the D65 white point. *)
Lemma neutral_axis_witness :
  0.28512 / d65_white 0%nat = 0.3 / d65_white 1%nat /\
  0.3 / d65_white 1%nat = 0.32664 / d65_white 2%nat /\
  vget (fromXYZ d65_white [0.28512; 0.3; 0.32664]) 1 = 0.5 /\
  vget (fromXYZ d65_white [0.28512; 0.3; 0.32664]) 2 = 0.5.
Proof.
  assert (Hxy : 0.28512 / d65_white 0%nat = 0.3 / d65_white 1%nat)
    by (unfold d65_white; cbn [nth]; lra).
  assert (Hyz : 0.3 / d65_white 1%nat = 0.32664 / d65_white 2%nat)
    by (unfold d65_white; cbn [nth]; lra).
  split; [exact Hxy |]. split; [exact Hyz |].
  exact (proj2 (neutral_axis d65_white 0.4 0.28512 0.3 0.32664 [] Hxy Hyz)).
Defined.

(** X21 at the sample button. *)
Lemma menu_within_bounds_witness :
  get_lower sample_button <= get_value sample_button <= get_upper sample_button /\
  0 <= get_page_increment sample_button /\
  forall item, item ∈ create_popover_menu sample_button ->
    get_lower sample_button <= item_value item <= get_upper sample_button.
Proof.
  assert (Hvalue : get_lower sample_button <= get_value sample_button
                   <= get_upper sample_button) by (cbn; lra).
  assert (Hpage : 0 <= get_page_increment sample_button) by (cbn; lra).
  split; [exact Hvalue |]. split; [exact Hpage |].
  exact (menu_within_bounds sample_button Hvalue Hpage).
Defined.

(** X22 at the custom entry for the current value of the sample button. *)
Lemma menu_keeps_custom_label_witness :
  NoDup (_custom_menu_data sample_button).*1 /\
  (50, "half"%string) ∈ _custom_menu_data sample_button /\
  get_lower sample_button <= 50 <= get_upper sample_button /\
  exists item,
    item ∈ create_popover_menu sample_button /\
    item_value item = 50 /\
    item_label item =
      (if negb (String.eqb "half" "") then ustring_compose 50 "half"%string
       else format_classic 50).
Proof.
  assert (Hnodup : NoDup (_custom_menu_data sample_button).*1).
  { cbn. repeat (apply NoDup_cons; split);
      rewrite ?elem_of_cons; try apply NoDup_nil_2;
      intros H; repeat (destruct H as [H | H]; [lra |]); inversion H. }
  assert (Hin : (50, "half"%string) ∈ _custom_menu_data sample_button)
    by (right; left).
  assert (Hrange : get_lower sample_button <= 50 <= get_upper sample_button)
    by (cbn; lra).
  split; [exact Hnodup |]. split; [exact Hin |]. split; [exact Hrange |].
  exact (menu_keeps_custom_label sample_button 50 "half" Hnodup Hin Hrange).
Defined.

Lemma sample_button_up :
  on_key_pressed sample_button GDK_KEY_Up 0%N = (true, [set_value (50 + 1)]).
Proof.
  unfold on_key_pressed. cbn.
  destruct (Rlt_dec 0 1) as [_ | Hn]; [reflexivity | exfalso; lra].
Defined.

(** X24 at the Up key without modifiers. *)
Lemma value_set_only_when_consumed_witness :
  set_value (50 + 1) ∈ (on_key_pressed sample_button GDK_KEY_Up 0%N).2 /\
  (on_key_pressed sample_button GDK_KEY_Up 0%N).1 = true.
Proof.
  assert (Hin : set_value (50 + 1) ∈ (on_key_pressed sample_button GDK_KEY_Up 0%N).2)
    by (rewrite sample_button_up; left).
  split; [exact Hin |].
  exact (value_set_only_when_consumed sample_button GDK_KEY_Up 0%N _ Hin).
Defined.

(** X25 at the Escape key. *)
Lemma key_press_sets_only_witness :
  set_value 40 ∈ (on_key_pressed sample_button GDK_KEY_Escape 1%N).2 /\
  (40 = _on_focus_in_value sample_button \/
   (0 < _increment sample_button /\ has_flag 1%N modifiers = false /\
    (40 = get_value sample_button + _increment sample_button \/
     40 = get_value sample_button - _increment sample_button))).
Proof.
  assert (Hin : set_value 40 ∈ (on_key_pressed sample_button GDK_KEY_Escape 1%N).2).
  { unfold on_key_pressed. cbn. destruct (Rlt_dec 0 1); left. }
  split; [exact Hin |].
  exact (key_press_sets_only sample_button GDK_KEY_Escape 1%N 40 Hin).
Defined.

End MoreInstances.
